(** * A lock-free linear-probing hash table (hashtable.h), sequential model

    Shallow embedding of [hashtable.h]: the integer hash functions, the
    statistics record, the table descriptor and the operations generated by
    the [DECLARE_HASHTABLE] macro ([init], [insert], [remove], [find]).

    Conventions.
    - [uint32_t] and [uint64_t]/[size_t] values are integers in [Z]; every
      operation that can leave the range is followed by [wrap32]/[wrap64].
    - The slot array is a [list] of slots; a slot pointer is the index of the
      slot.  Reading or writing a slot outside the array is a fault ([None]).
    - Operations run in a small state-and-fault monad whose state is the
      table descriptor together with the list of slot indexes touched so far.
    - Only one thread runs: [HASHTABLE_CMPXCHG] is a read followed by a
      conditional write, [HASHTABLE_BARRIER] is a no-op.
    - The registry ([hashtable_registry_add]) and the log output ([PRINTF])
      do not touch the table descriptor and are left out of the operations;
      the registry is modelled on its own, as the array of the registered
      addresses. *)

From stdpp Require Import base numbers option list strings gmap.

Local Open Scope Z_scope.

(** ** Machine integers *)

Definition wrap32 (z : Z) : Z := z mod 2 ^ 32.
Definition wrap64 (z : Z) : Z := z mod 2 ^ 64.

(** ** Hash functions *)

(** [static uint32_t hash32shift(uint32_t key)] *)
Definition hash32shift (key : Z) : Z :=
  let key := wrap32 (wrap32 (Z.lnot key) + wrap32 (Z.shiftl key 10)) in
  let key := Z.lxor key (Z.shiftr key 7) in
  let key := wrap32 (key + wrap32 (Z.shiftl key 1)) in
  let key := Z.lxor key (Z.shiftr key 2) in
  let key := wrap32 (key * 187) in
  let key := Z.lxor key (Z.shiftr key 11) in
  key.

(** [static uint32_t hash_none(uint32_t key)] *)
Definition hash_none (key : Z) : Z := key.

(** The mixing sequence as the specification words it: six assignments, each
    one an operation of 32-bit unsigned arithmetic, given here by its
    arithmetic meaning modulo [2^32]. *)
Module U32.
Definition modulus : Z := 4294967296.
Definition not (a : Z) : Z := modulus - 1 - a.
Definition add (a b : Z) : Z := (a + b) mod modulus.
Definition mul (a b : Z) : Z := (a * b) mod modulus.
Definition shl (a n : Z) : Z := (a * 2 ^ n) mod modulus.
Definition shr (a n : Z) : Z := a / 2 ^ n.
Definition xor (a b : Z) : Z := Z.lxor a b.
End U32.

Definition hash32shift_steps : list (Z -> Z) :=
  [ (fun key => U32.add (U32.not key) (U32.shl key 10));
    (fun key => U32.xor key (U32.shr key 7));
    (fun key => U32.add key (U32.shl key 1));
    (fun key => U32.xor key (U32.shr key 2));
    (fun key => U32.mul key 187);
    (fun key => U32.xor key (U32.shr key 11)) ].

Definition hash32shift_spec (key : Z) : Z :=
  fold_left (fun k step => step k) hash32shift_steps key.

(** ** Statistics *)

Module Stat.
(** [hashtable_stat_t]: nine [uint64_t] counters. *)
Record t := mk {
  insert : Z;
  remove : Z;
  search : Z;
  collision : Z;
  overwritten : Z;
  insert_err : Z;
  remove_err : Z;
  search_ok : Z;
  search_err : Z
}.

Definition zero : t := mk 0 0 0 0 0 0 0 0 0.

(** [s.insert++] and its siblings. *)
Definition incr_insert (s : t) : t :=
  mk (wrap64 (insert s + 1)) (remove s) (search s) (collision s) (overwritten s)
     (insert_err s) (remove_err s) (search_ok s) (search_err s).
Definition incr_remove (s : t) : t :=
  mk (insert s) (wrap64 (remove s + 1)) (search s) (collision s) (overwritten s)
     (insert_err s) (remove_err s) (search_ok s) (search_err s).
Definition incr_search (s : t) : t :=
  mk (insert s) (remove s) (wrap64 (search s + 1)) (collision s) (overwritten s)
     (insert_err s) (remove_err s) (search_ok s) (search_err s).
Definition incr_collision (s : t) : t :=
  mk (insert s) (remove s) (search s) (wrap64 (collision s + 1)) (overwritten s)
     (insert_err s) (remove_err s) (search_ok s) (search_err s).
Definition incr_overwritten (s : t) : t :=
  mk (insert s) (remove s) (search s) (collision s) (wrap64 (overwritten s + 1))
     (insert_err s) (remove_err s) (search_ok s) (search_err s).
Definition incr_insert_err (s : t) : t :=
  mk (insert s) (remove s) (search s) (collision s) (overwritten s)
     (wrap64 (insert_err s + 1)) (remove_err s) (search_ok s) (search_err s).
Definition incr_remove_err (s : t) : t :=
  mk (insert s) (remove s) (search s) (collision s) (overwritten s)
     (insert_err s) (wrap64 (remove_err s + 1)) (search_ok s) (search_err s).
Definition incr_search_ok (s : t) : t :=
  mk (insert s) (remove s) (search s) (collision s) (overwritten s)
     (insert_err s) (remove_err s) (wrap64 (search_ok s + 1)) (search_err s).
Definition incr_search_err (s : t) : t :=
  mk (insert s) (remove s) (search s) (collision s) (overwritten s)
     (insert_err s) (remove_err s) (search_ok s) (wrap64 (search_err s + 1)).
End Stat.

(** ** Slots and the table descriptor *)

Module Slot.
(** [hashtable_tokn_slot_t]: a key and the payload. *)
Record t (data_type : Type) := mk { key : Z; data : data_type }.
Arguments mk {data_type} _ _.
Arguments key {data_type} _.
Arguments data {data_type} _.
End Slot.

Section DECLARE_HASHTABLE.

(** The macro parameters [data_type], [max_tries], [illegal_key] and
    [illegal_data]; [sizeof_slot] is [sizeof(hashtable_tokn_slot_t)]. *)
Context {data_type : Type}.
Variable max_tries : Z.
Variable illegal_key : Z.
Variable illegal_data : data_type.
Variable sizeof_slot : Z.

(** [hashtable_alloc]: [malloc] hands back either [NULL] or a block whose
    content is arbitrary; the block is seen as an array of slots. *)
Variable hashtable_alloc : Z -> option (list (Slot.t data_type)).

Abbreviation slot_t := (Slot.t data_type).

(** [hashtable_t].  [hashfunction] is [None] for a [NULL] function
    pointer; [__table] is the slot array [__table] points to (empty
    before [init]). *)
Record hashtable_t := mk_hashtable {
  name : string;
  bits : Z;
  hashfunction : option (Z -> Z);
  __size : Z;
  __memory_size : Z;
  __stat : Stat.t;
  __table : list slot_t
}.

Definition set_hashfunction (f : option (Z -> Z)) (h : hashtable_t) : hashtable_t :=
  mk_hashtable (name h) (bits h) f (__size h) (__memory_size h) (__stat h) (__table h).
Definition set_size (n : Z) (h : hashtable_t) : hashtable_t :=
  mk_hashtable (name h) (bits h) (hashfunction h) n (__memory_size h) (__stat h) (__table h).
Definition set_memory_size (n : Z) (h : hashtable_t) : hashtable_t :=
  mk_hashtable (name h) (bits h) (hashfunction h) (__size h) n (__stat h) (__table h).
Definition set_stat (s : Stat.t) (h : hashtable_t) : hashtable_t :=
  mk_hashtable (name h) (bits h) (hashfunction h) (__size h) (__memory_size h) s (__table h).
Definition set_table (tbl : list slot_t) (h : hashtable_t) : hashtable_t :=
  mk_hashtable (name h) (bits h) (hashfunction h) (__size h) (__memory_size h) (__stat h) tbl.

(** [hashtable_get_index]: [hash & (hashtable->__size - 1)] in [size_t]. *)
Definition hashtable_get_index (hashtable : hashtable_t) (hash : Z) : Z :=
  Z.land hash (wrap64 (__size hashtable - 1)).

(** *** The monad of table operations

    The state is the descriptor and the indexes of the slots touched so
    far (oldest first); [None] is a fault: an access outside the slot
    array, a call through a [NULL] function pointer, or an undefined
    shift. *)
Record world := mk_world { ht : hashtable_t; touched : list Z }.

Definition M (A : Type) : Type := world -> option (A * world).

Definition ret {A} (a : A) : M A := fun w => Some (a, w).

Definition bind {A B} (m : M A) (k : A -> M B) : M B :=
  fun w => match m w with
           | Some (a, w') => k a w'
           | None => None
           end.

Definition fault {A} : M A := fun _ => None.

Definition lift {A} (o : option A) : M A :=
  match o with Some a => ret a | None => fault end.

Local Notation "x <- m ;; k" := (bind m (fun x => k))
  (at level 20, m at level 99, k at level 200, only parsing).
Local Notation "m ;; k" := (bind m (fun _ => k))
  (at level 100, k at level 200, right associativity, only parsing).

Definition get_ht : M hashtable_t := fun w => Some (ht w, w).

Definition modify_ht (f : hashtable_t -> hashtable_t) : M unit :=
  fun w => Some (tt, mk_world (f (ht w)) (touched w)).

Definition modify_stat (f : Stat.t -> Stat.t) : M unit :=
  modify_ht (fun h => set_stat (f (__stat h)) h).

(** The slot at index [i] of a slot array, if [i] is inside it. *)
Definition slot_at (tbl : list slot_t) (i : Z) : option slot_t :=
  if 0 <=? i then tbl !! Z.to_nat i else None.

(** One access to the slot behind [HASHTABLE_SLOT_ADDR(hashtable, tokn, i)]:
    [f] maps the slot's content to the value read and the content left. *)
Definition access {A} (i : Z) (f : slot_t -> A * slot_t) : M A :=
  fun w =>
    match slot_at (__table (ht w)) i with
    | Some s =>
        let (a, s') := f s in
        Some (a, mk_world (set_table (<[Z.to_nat i := s']> (__table (ht w))) (ht w))
                          (touched w ++ [i]))
    | None => None
    end.

Definition load_key (slot : Z) : M Z :=
  access slot (fun s => (Slot.key s, s)).
Definition load_data (slot : Z) : M data_type :=
  access slot (fun s => (Slot.data s, s)).
Definition store_key (slot : Z) (k : Z) : M unit :=
  access slot (fun s => (tt, Slot.mk k (Slot.data s))).
Definition store_data (slot : Z) (d : data_type) : M unit :=
  access slot (fun s => (tt, Slot.mk (Slot.key s) d)).

(** [HASHTABLE_CMPXCHG(&slot->key, val, new_val)]: returns the key found. *)
Definition HASHTABLE_CMPXCHG (slot : Z) (val new_val : Z) : M Z :=
  access slot (fun s => (Slot.key s,
                         if Slot.key s =? val then Slot.mk new_val (Slot.data s) else s)).

(** [1 << bits] on [int]: defined for [0 <= bits <= 30] only. *)
Definition shl_one (bits : Z) : option Z :=
  if (0 <=? bits) && (bits <=? 30) then Some (Z.shiftl 1 bits) else None.

(** *** The generated functions *)

(** [hashtable_tokn_init_slot] *)
Definition hashtable_init_slot (slot : Z) : M unit :=
  store_key slot illegal_key ;;
  store_data slot illegal_data.

(** [hashtable_tokn_memory_size] *)
Definition hashtable_memory_size (bits : Z) : option Z :=
  match shl_one bits with
  | Some n =>
      let slots := wrap64 (n + max_tries) in
      Some (wrap64 (sizeof_slot * slots))
  | None => None
  end.

(** The [for (i = 0; i < __size + max_tries; i++)] loop of [init], with
    [n] iterations left. *)
Fixpoint init_loop (n : nat) (i : Z) : M unit :=
  match n with
  | O => ret tt
  | S n' => hashtable_init_slot i ;; init_loop n' (i + 1)
  end.

(** [hashtable_tokn_init] *)
Definition hashtable_init : M Z :=
  hashtable <- get_ht ;;
  memory_size <- lift (hashtable_memory_size (bits hashtable)) ;;
  match hashtable_alloc memory_size with
  | Some p =>
      (match hashfunction hashtable with
       | None => modify_ht (set_hashfunction (Some hash32shift))
       | Some _ => ret tt
       end) ;;
      size <- lift (shl_one (bits hashtable)) ;;
      modify_ht (set_size size) ;;
      modify_ht (set_memory_size memory_size) ;;
      modify_ht (set_table p) ;;
      init_loop (Z.to_nat (wrap64 (size + max_tries))) 0 ;;
      ret 1
  | None => ret 0
  end.

(** The probe loop of [insert], [for (; slot < slot_max; slot++)], with
    [n = slot_max - slot] iterations left; [Some rc] is a [return rc]
    from inside the loop, [None] is falling out of it. *)
Fixpoint insert_loop (n : nat) (slot : Z) (key : Z) (data : data_type) : M (option Z) :=
  match n with
  | O => ret None
  | S n' =>
      old_key <- HASHTABLE_CMPXCHG slot illegal_key key ;;
      if old_key =? illegal_key then
        store_data slot data ;;
        ret (Some 1)
      else if old_key =? key then
        store_data slot data ;;
        modify_stat Stat.incr_overwritten ;;
        ret (Some 1)
      else
        modify_stat Stat.incr_collision ;;
        insert_loop n' (slot + 1) key data
  end.

(** [hashtable_tokn_insert] *)
Definition hashtable_insert (key : Z) (data : data_type) : M Z :=
  hashtable <- get_ht ;;
  hashfunction <- lift (hashfunction hashtable) ;;
  let hash := wrap32 (hashfunction key) in
  let index := wrap32 (hashtable_get_index hashtable hash) in
  let index_max := wrap32 (index + max_tries) in
  modify_stat Stat.incr_insert ;;
  r <- insert_loop (Z.to_nat (index_max - index)) index key data ;;
  match r with
  | Some rc => ret rc
  | None =>
      modify_stat Stat.incr_insert_err ;;
      ret 0
  end.

(** The probe loop of [remove].  [data] tells whether the caller passed a
    non-[NULL] [data] pointer; the result carries what was stored through
    it. *)
Fixpoint remove_loop (n : nat) (slot : Z) (key : Z) (data : bool)
  : M (option (Z * option data_type)) :=
  match n with
  | O => ret None
  | S n' =>
      old_key <- load_key slot ;;
      if old_key =? key then
        out <- (if data then d <- load_data slot ;; ret (Some d) else ret None) ;;
        store_data slot illegal_data ;;
        store_key slot illegal_key ;;
        ret (Some (1, out))
      else
        remove_loop n' (slot + 1) key data
  end.

(** [hashtable_tokn_remove] *)
Definition hashtable_remove (key : Z) (data : bool) : M (Z * option data_type) :=
  hashtable <- get_ht ;;
  hashfunction <- lift (hashfunction hashtable) ;;
  let hash := wrap32 (hashfunction key) in
  let index := wrap32 (hashtable_get_index hashtable hash) in
  let index_max := wrap32 (index + max_tries) in
  modify_stat Stat.incr_remove ;;
  r <- remove_loop (Z.to_nat (index_max - index)) index key data ;;
  match r with
  | Some res => ret res
  | None =>
      modify_stat Stat.incr_remove_err ;;
      ret (0, None)
  end.

(** The probe loop of [find]; the result carries what was stored through
    the [data] pointer. *)
Fixpoint find_loop (n : nat) (slot : Z) (key : Z) : M (option (Z * option data_type)) :=
  match n with
  | O => ret None
  | S n' =>
      old_key <- load_key slot ;;
      if old_key =? key then
        d <- load_data slot ;;
        modify_stat Stat.incr_search_ok ;;
        ret (Some (1, Some d))
      else
        find_loop n' (slot + 1) key
  end.

(** [hashtable_tokn_find] *)
Definition hashtable_find (key : Z) : M (Z * option data_type) :=
  hashtable <- get_ht ;;
  hashfunction <- lift (hashfunction hashtable) ;;
  let hash := wrap32 (hashfunction key) in
  let index := wrap32 (hashtable_get_index hashtable hash) in
  let index_max := wrap32 (index + max_tries) in
  modify_stat Stat.incr_search ;;
  r <- find_loop (Z.to_nat (index_max - index)) index key ;;
  match r with
  | Some res => ret res
  | None =>
      modify_stat Stat.incr_search_err ;;
      ret (0, None)
  end.

(** Running an operation on a descriptor, with an empty access log. *)
Definition exec {A} (m : M A) (hashtable : hashtable_t) : option (A * world) :=
  m (mk_world hashtable []).

End DECLARE_HASHTABLE.

Arguments hashtable_t : clear implicits.
Arguments world : clear implicits.
Arguments M : clear implicits.

(** ** The instance of hashtable_test.cpp

    [DECLARE_HASHTABLE(uint32, uint32_t, 4, 0, 0)] and the static descriptor
    [{"hash", HASHTABLE_BITS, hash_none}]. *)
Module hashtable_test.
Definition HASHTABLE_BITS : Z := 8.

Definition hashtable : hashtable_t Z :=
  mk_hashtable "hash" HASHTABLE_BITS (Some hash_none) 0 0 Stat.zero [].

Definition hashtable_uint32_init (hashtable_alloc : Z -> option (list (Slot.t Z))) : M Z Z :=
  hashtable_init 4 0 0 8 hashtable_alloc.
Definition hashtable_uint32_insert : Z -> Z -> M Z Z := hashtable_insert 4 0.
Definition hashtable_uint32_remove : Z -> bool -> M Z (Z * option Z) := hashtable_remove 4 0 0.
Definition hashtable_uint32_find : Z -> M Z (Z * option Z) := hashtable_find 4.

(** An allocator that always succeeds and returns a block filled with [junk]. *)
Definition alloc_junk (junk : Slot.t Z) (size : Z) : option (list (Slot.t Z)) :=
  if 0 <=? size then Some (replicate (Z.to_nat (size / 8)) junk) else None.

(** The descriptor [init] leaves behind for the static [hashtable]. *)
Definition hashtable_fresh : hashtable_t Z :=
  mk_hashtable "hash" 8 (Some hash_none) 256 2080 Stat.zero
               (replicate 260 (Slot.mk 0 0)).

(** The table after the inserts of 256, 512, 768 and 1024 (payload equal
    to the key): slots 0 to 3 are taken. *)
Definition hashtable_full : hashtable_t Z :=
  mk_hashtable "hash" 8 (Some hash_none) 256 2080 (Stat.mk 4 0 0 6 0 0 0 0 0)
               ([Slot.mk 256 256; Slot.mk 512 512; Slot.mk 768 768; Slot.mk 1024 1024]
                  ++ replicate 256 (Slot.mk 0 0)).
End hashtable_test.

(** ** Scanning a probe window

    [probe p tbl n i] walks the [n] slots from index [i] the way the three
    probe loops do and tells how the walk ends: on the first slot whose key
    satisfies [p], after the last slot, or on an index outside the array. *)
Inductive probe_result (data_type : Type) : Type :=
| Fault
| Miss
| Hit (j : Z) (s : Slot.t data_type).
Arguments Fault {data_type}.
Arguments Miss {data_type}.
Arguments Hit {data_type} _ _.

Fixpoint probe {data_type} (p : Z -> bool) (tbl : list (Slot.t data_type))
    (n : nat) (i : Z) : probe_result data_type :=
  match n with
  | O => Miss
  | S n' =>
      match slot_at tbl i with
      | None => Fault
      | Some s => if p (Slot.key s) then Hit i s else probe p tbl n' (i + 1)
      end
  end.

(** The keys on which the probe loop of [insert] stops: a free slot or a
    slot of the same key. *)
Definition insert_stops (illegal_key key : Z) : Z -> bool :=
  fun k => (k =? illegal_key) || (k =? key).

(** The keys on which the probe loops of [remove] and [find] stop. *)
Definition lookup_stops (key : Z) : Z -> bool := fun k => k =? key.

(** The first slot index and the number of slots of the probe window of
    [key], as [insert], [remove] and [find] compute them. *)
Definition probe_index {data_type} (hashtable : hashtable_t data_type) (key : Z) : Z :=
  match hashfunction hashtable with
  | Some f => wrap32 (hashtable_get_index hashtable (wrap32 (f key)))
  | None => 0
  end.

Definition probe_count {data_type} (max_tries : Z) (hashtable : hashtable_t data_type)
    (key : Z) : nat :=
  let index := probe_index hashtable key in
  Z.to_nat (wrap32 (index + max_tries) - index).

(** The slots of the probe window of [key] that lie inside the array. *)
Definition probe_window {data_type} (max_tries : Z) (hashtable : hashtable_t data_type)
    (key : Z) : list (Slot.t data_type) :=
  take (probe_count max_tries hashtable key)
       (drop (Z.to_nat (probe_index hashtable key)) (__table hashtable)).

(** How many slots of the probe window of [key] hold [key]. *)
Definition holders {data_type} (max_tries : Z) (hashtable : hashtable_t data_type)
    (key : Z) : nat :=
  length (filter (fun s => Slot.key s = key) (probe_window max_tries hashtable key)).

(** A descriptor as [init] leaves it: [__size] is [1 << bits], the array has
    [__size + max_tries] slots and the hash function is set. *)
Definition table_ok {data_type} (max_tries : Z) (h : hashtable_t data_type) : Prop :=
  0 <= bits h <= 30 /\
  __size h = 2 ^ bits h /\
  Z.of_nat (length (__table h)) = __size h + max_tries /\
  is_Some (hashfunction h).

(** Every slot is free: key [illegal_key], payload [illegal_data]. *)
Definition all_free {data_type} (illegal_key : Z) (illegal_data : data_type)
    (tbl : list (Slot.t data_type)) : Prop :=
  Forall (fun s => s = Slot.mk illegal_key illegal_data) tbl.

(** The slot indexes in [tr] are exactly the first [m] slots of the probe
    window of [key], for some [m <= max_tries], and all lie in the array of
    [__size + max_tries] slots. *)
Definition window_accesses {data_type} (max_tries : Z) (h : hashtable_t data_type)
    (key : Z) (tr : list Z) : Prop :=
  (exists m, 0 <= m <= max_tries /\
     forall i, i ∈ tr <-> probe_index h key <= i < probe_index h key + m) /\
  Forall (fun i => 0 <= i < __size h + max_tries) tr.

(** The allocator hands out exactly the bytes asked for: a block obtained
    for [size] bytes holds [size / sizeof_slot] whole slots. *)
Definition alloc_exact {data_type} (sizeof_slot : Z)
    (hashtable_alloc : Z -> option (list (Slot.t data_type))) : Prop :=
  forall size p, hashtable_alloc size = Some p ->
                 Z.of_nat (length p) = size / sizeof_slot.

(** ** Sequences of operations on one table, run by one thread *)
Inductive op (data_type : Type) : Type :=
| Insert (key : Z) (data : data_type)
| Remove (key : Z) (data : bool)
| Find (key : Z).
Arguments Insert {data_type} _ _.
Arguments Remove {data_type} _ _.
Arguments Find {data_type} _.

Definition run_op {data_type} (max_tries illegal_key : Z) (illegal_data : data_type)
    (o : op data_type) (h : hashtable_t data_type) : option (hashtable_t data_type) :=
  match o with
  | Insert key data =>
      match exec (hashtable_insert max_tries illegal_key key data) h with
      | Some (_, w) => Some (ht w)
      | None => None
      end
  | Remove key data =>
      match exec (hashtable_remove max_tries illegal_key illegal_data key data) h with
      | Some (_, w) => Some (ht w)
      | None => None
      end
  | Find key =>
      match exec (hashtable_find max_tries key) h with
      | Some (_, w) => Some (ht w)
      | None => None
      end
  end.

Fixpoint run_ops {data_type} (max_tries illegal_key : Z) (illegal_data : data_type)
    (os : list (op data_type)) (h : hashtable_t data_type) : option (hashtable_t data_type) :=
  match os with
  | [] => Some h
  | o :: os' =>
      match run_op max_tries illegal_key illegal_data o h with
      | Some h' => run_ops max_tries illegal_key illegal_data os' h'
      | None => None
      end
  end.

(** Every taken slot is where an insert of its key would stop: inside the
    probe window of the key, with no free slot and no slot of the same key
    before it. *)
Definition well_placed {data_type} (max_tries illegal_key : Z)
    (h : hashtable_t data_type) : Prop :=
  forall j s,
    slot_at (__table h) j = Some s -> Slot.key s <> illegal_key ->
    probe (insert_stops illegal_key (Slot.key s)) (__table h)
          (probe_count max_tries h (Slot.key s)) (probe_index h (Slot.key s)) = Hit j s.

(** A sequence of operations without [remove]. *)
Definition no_remove {data_type} (os : list (op data_type)) : Prop :=
  Forall (fun o => match o with Remove _ _ => False | _ => True end) os.

(** ** What a lookup sees *)

(** What a lookup of [key] sees in the table: the payload of the first slot
    of the probe window that holds [key]. *)
Definition table_lookup {data_type} (max_tries : Z) (h : hashtable_t data_type)
    (key : Z) : option data_type :=
  match probe (lookup_stops key) (__table h)
              (probe_count max_tries h key) (probe_index h key) with
  | Hit _ s => Some (Slot.data s)
  | _ => None
  end.

(** The table [h] holds the finite map [m]: for every key but [illegal_key]
    a lookup sees what [m] has. *)
Definition represents {data_type} (max_tries illegal_key : Z)
    (h : hashtable_t data_type) (m : gmap Z data_type) : Prop :=
  forall k, k <> illegal_key -> table_lookup max_tries h k = m !! k.

(** The slot index [j] is the first of the probe window of [key] whose key
    satisfies [p]; the slots before it are inside the array. *)
Definition first_in_window {data_type} (max_tries : Z) (p : Z -> bool)
    (h : hashtable_t data_type) (key : Z) (j : Z) (s : Slot.t data_type) : Prop :=
  probe_index h key <= j < probe_index h key + Z.of_nat (probe_count max_tries h key) /\
  slot_at (__table h) j = Some s /\ p (Slot.key s) = true /\
  forall i, probe_index h key <= i < j ->
    exists s', slot_at (__table h) i = Some s' /\ p (Slot.key s') = false.

(** No slot of the probe window of [key] has a key that satisfies [p]. *)
Definition none_in_window {data_type} (max_tries : Z) (p : Z -> bool)
    (h : hashtable_t data_type) (key : Z) : Prop :=
  forall i, probe_index h key <= i < probe_index h key + Z.of_nat (probe_count max_tries h key) ->
    exists s', slot_at (__table h) i = Some s' /\ p (Slot.key s') = false.

(** ** The registry

    [static hashtable_t *hashtable_registry[64]]: an entry is the address of
    a descriptor, or [None] for [NULL].  The array is static, so it starts
    with 64 [NULL] entries. *)
Definition REGISTRY_SIZE : nat := 64.

Definition hashtable_registry_empty : list (option Z) := replicate REGISTRY_SIZE None.

(** The loop of [hashtable_registry_add], with [n] iterations left at index
    [i]: stop on the entry of [table] or on the first [NULL] entry, which is
    taken. *)
Fixpoint registry_add_loop (n : nat) (i : nat) (table : Z)
    (hashtable_registry : list (option Z)) : list (option Z) :=
  match n with
  | O => hashtable_registry
  | S n' =>
      match hashtable_registry !! i with
      | Some (Some registry) =>
          if registry =? table then hashtable_registry
          else registry_add_loop n' (S i) table hashtable_registry
      | Some None => <[i := Some table]> hashtable_registry
      | None => hashtable_registry
      end
  end.

(** [hashtable_registry_add] *)
Definition hashtable_registry_add (table : Z) (hashtable_registry : list (option Z))
    : list (option Z) :=
  registry_add_loop REGISTRY_SIZE 0 table hashtable_registry.

(** The loop of [hashtable_registry_remove]: every entry of [table] is set
    to [NULL]; the loop does not stop at the first one. *)
Fixpoint registry_remove_loop (n : nat) (i : nat) (table : Z)
    (hashtable_registry : list (option Z)) : list (option Z) :=
  match n with
  | O => hashtable_registry
  | S n' =>
      match hashtable_registry !! i with
      | Some (Some registry) =>
          if registry =? table
          then registry_remove_loop n' (S i) table (<[i := None]> hashtable_registry)
          else registry_remove_loop n' (S i) table hashtable_registry
      | _ => registry_remove_loop n' (S i) table hashtable_registry
      end
  end.

(** [hashtable_registry_remove] *)
Definition hashtable_registry_remove (table : Z) (hashtable_registry : list (option Z))
    : list (option Z) :=
  registry_remove_loop REGISTRY_SIZE 0 table hashtable_registry.

(** The registered tables come first: no [NULL] entry is followed by a
    table, and no table is entered twice. *)
Definition registry_compact (hashtable_registry : list (option Z)) : Prop :=
  exists tables : list Z,
    NoDup tables /\
    hashtable_registry = (Some <$> tables) ++ replicate (REGISTRY_SIZE - length tables) None /\
    (length tables <= REGISTRY_SIZE)%nat.

(** ** The drivers of hashtable_test.cpp

    [linux_log] writes to the terminal only; it is left out, like [PRINTF]. *)
Module hashtable_test_main.
Import hashtable_test.

Local Notation "x <- m ;; k" := (bind m (fun x => k))
  (at level 20, m at level 99, k at level 200, only parsing).

(** [get_value_collision]: [(1 << HASHTABLE_BITS) << idx] on [int], defined
    as long as the result fits. *)
Definition get_value_collision (idx : Z) : option Z :=
  if (0 <=? idx) && (idx <=? 22)
  then Some (Z.shiftl (Z.shiftl 1 HASHTABLE_BITS) idx) else None.

(** [get_value]: the [int] index as a [uint32_t]. *)
Definition get_value (idx : Z) : Z := wrap32 idx.

(** One turn of the [while (1)] loop of [thread_job]: [Some rc] is a
    [return rc], [None] is reaching the end of the loop body. *)
Definition thread_job_body (value_to_store : Z) : M Z (option Z) :=
  rc <- hashtable_uint32_insert value_to_store value_to_store ;;
  if rc =? 0 then ret (Some 1) else
  r <- hashtable_uint32_find value_to_store ;;
  if fst r =? 0 then ret (Some 1) else
  found_value <- lift (snd r) ;;
  if negb (found_value =? value_to_store) then ret (Some 1) else
  r <- hashtable_uint32_find (wrap32 (Z.lnot value_to_store)) ;;
  if negb (fst r =? 0) then ret (Some 1) else
  r <- hashtable_uint32_remove value_to_store true ;;
  if fst r =? 0 then ret (Some 1) else
  deleted_value <- lift (snd r) ;;
  if negb (deleted_value =? value_to_store) then ret (Some 1) else
  r <- hashtable_uint32_find value_to_store ;;
  if negb (fst r =? 0) then ret (Some 1) else
  ret None.

(** The first [n] turns of the loop: [None] when the thread is still in the
    loop after them. *)
Fixpoint thread_job_loop (n : nat) (value_to_store : Z) : M Z (option Z) :=
  match n with
  | O => ret None
  | S n' =>
      r <- thread_job_body value_to_store ;;
      match r with
      | Some rc => ret (Some rc)
      | None => thread_job_loop n' value_to_store
      end
  end.

(** [thread_job], watched for [n] turns of its loop. *)
Definition thread_job (n : nat) (idx : Z) : M Z (option Z) :=
  value_to_store <- lift (get_value_collision idx) ;;
  thread_job_loop n value_to_store.

(** The first loop of [synchronous_access], with [n] iterations left at
    index [i]. *)
Fixpoint synchronous_insert_loop (n : nat) (i : Z) : M Z (option Z) :=
  match n with
  | O => ret None
  | S n' =>
      let value_to_store := get_value i in
      rc <- hashtable_uint32_insert value_to_store value_to_store ;;
      if rc =? 0 then ret (Some 0)
      else synchronous_insert_loop n' (i + 1)
  end.

(** The second loop: a [remove] that fails returns 0, a [remove] that
    delivers another payload returns 1. *)
Fixpoint synchronous_remove_loop (n : nat) (i : Z) : M Z (option Z) :=
  match n with
  | O => ret None
  | S n' =>
      let value_to_store := get_value i in
      r <- hashtable_uint32_remove value_to_store true ;;
      if fst r =? 0 then ret (Some 0) else
      deleted_value <- lift (snd r) ;;
      if negb (deleted_value =? value_to_store) then ret (Some 1)
      else synchronous_remove_loop n' (i + 1)
  end.

(** [synchronous_access] *)
Definition synchronous_access (cpus : Z) : M Z Z :=
  r <- synchronous_insert_loop (Z.to_nat cpus) 0 ;;
  match r with
  | Some rc => ret rc
  | None =>
      r <- synchronous_remove_loop (Z.to_nat cpus) 0 ;;
      match r with
      | Some rc => ret rc
      | None => ret 1
      end
  end.
End hashtable_test_main.


(** The checks of [synchronous_access] on the constructed test table, as
    one boolean: it returns 1, leaves every slot free and has counted
    [cpus] inserts and [cpus] removes without a failure or a collision. *)
Definition synchronous_access_clean (cpus : Z) : bool :=
  match exec (hashtable_test_main.synchronous_access cpus) hashtable_test.hashtable_fresh with
  | Some (rc, w) =>
      (rc =? 1)
      && forallb (fun s => (Slot.key s =? 0) && (Slot.data s =? 0)) (__table (ht w))
      && (Z.of_nat (length (__table (ht w))) =? 260)
      && (Stat.insert (__stat (ht w)) =? cpus)
      && (Stat.remove (__stat (ht w)) =? cpus)
      && (Stat.insert_err (__stat (ht w)) =? 0)
      && (Stat.remove_err (__stat (ht w)) =? 0)
      && (Stat.collision (__stat (ht w)) =? 0)
  | None => false
  end.

(** ** linux_utils.h

    [static inline uint32_t linux_inc_index(uint32_t index, uint32_t max_index)] *)
Definition linux_inc_index (index max_index : Z) : Z :=
  let index := wrap32 (index + 1) in
  if max_index <? index then 0 else index.

(** * Properties *)

(** ** Facts about [probe] *)
Section probe_facts.
Context {data_type : Type}.
Implicit Types (tbl : list (Slot.t data_type)) (p : Z -> bool).

Lemma slot_at_Some tbl i s :
  slot_at tbl i = Some s <-> 0 <= i /\ tbl !! Z.to_nat i = Some s.
Proof.
  unfold slot_at. destruct (Z.leb_spec 0 i).
  - split; [by intros ->|by intros [_ ->]].
  - split; [done|]. intros [? _]. lia.
Qed.

Lemma slot_at_is_Some tbl i :
  is_Some (slot_at tbl i) <-> 0 <= i < Z.of_nat (length tbl).
Proof.
  unfold is_Some. split.
  - intros [s Hs]. apply slot_at_Some in Hs as [? Hs].
    apply lookup_lt_Some in Hs. lia.
  - intros [? ?]. destruct (lookup_lt_is_Some_2 tbl (Z.to_nat i)) as [s Hs]; [lia|].
    exists s. by apply slot_at_Some.
Qed.

Lemma slot_at_insert tbl i j s :
  0 <= i -> 0 <= j ->
  slot_at (<[Z.to_nat j := s]> tbl) i =
    if decide (i = j) then (match slot_at tbl i with Some _ => Some s | None => None end)
    else slot_at tbl i.
Proof.
  intros Hi Hj. unfold slot_at.
  destruct (Z.leb_spec 0 i); [|lia].
  case_decide as Hij.
  - subst j. destruct (tbl !! Z.to_nat i) eqn:E.
    + apply list_lookup_insert_eq. by eapply lookup_lt_Some.
    + rewrite list_insert_ge; [done|]. by apply lookup_ge_None.
  - apply list_lookup_insert_ne. lia.
Qed.

Lemma slot_at_insert_eq tbl i s x :
  slot_at tbl i = Some s -> slot_at (<[Z.to_nat i := x]> tbl) i = Some x.
Proof.
  intros Hs. pose proof Hs as [? _]%slot_at_Some.
  rewrite slot_at_insert by lia. rewrite decide_True by done. by rewrite Hs.
Qed.

Lemma probe_Hit_inv p tbl n : forall i j s,
  probe p tbl n i = Hit j s ->
  i <= j < i + Z.of_nat n /\ slot_at tbl j = Some s /\ p (Slot.key s) = true /\
  forall i', i <= i' < j ->
    exists s', slot_at tbl i' = Some s' /\ p (Slot.key s') = false.
Proof.
  induction n as [|n IH]; intros i j s; simpl; [done|].
  destruct (slot_at tbl i) as [s0|] eqn:E; [|done].
  destruct (p (Slot.key s0)) eqn:Ep.
  - intros [= <- <-]. repeat split; first [done | lia | intros; lia].
  - intros H. apply IH in H as (Hr & Hs & Hp & Hbefore).
    repeat split; try done; try lia.
    intros i' Hi'. destruct (decide (i' = i)) as [->|]; [by exists s0|].
    apply Hbefore. lia.
Qed.

Lemma probe_Miss_inv p tbl n : forall i,
  probe p tbl n i = Miss ->
  forall i', i <= i' < i + Z.of_nat n ->
    exists s', slot_at tbl i' = Some s' /\ p (Slot.key s') = false.
Proof.
  induction n as [|n IH]; intros i; simpl; [intros; lia|].
  destruct (slot_at tbl i) as [s0|] eqn:E; [|done].
  destruct (p (Slot.key s0)) eqn:Ep; [done|].
  intros H i' Hi'. destruct (decide (i' = i)) as [->|]; [by exists s0|].
  apply (IH _ H). lia.
Qed.

Lemma probe_Fault_inv p tbl n : forall i,
  probe p tbl n i = Fault ->
  exists i', i <= i' < i + Z.of_nat n /\ slot_at tbl i' = None.
Proof.
  induction n as [|n IH]; intros i; simpl; [done|].
  destruct (slot_at tbl i) as [s0|] eqn:E.
  - destruct (p (Slot.key s0)); [done|].
    intros H. apply IH in H as (i' & ? & ?). exists i'. split; [lia|done].
  - intros _. exists i. split; [lia|done].
Qed.

Lemma probe_Hit_intro p tbl n : forall i j s,
  i <= j < i + Z.of_nat n ->
  slot_at tbl j = Some s ->
  p (Slot.key s) = true ->
  (forall i', i <= i' < j ->
     exists s', slot_at tbl i' = Some s' /\ p (Slot.key s') = false) ->
  probe p tbl n i = Hit j s.
Proof.
  induction n as [|n IH]; intros i j s Hr Hs Hp Hbefore; simpl; [lia|].
  destruct (decide (i = j)) as [->|Hne].
  - by rewrite Hs, Hp.
  - destruct (Hbefore i) as (s' & -> & ->); [lia|].
    apply IH; try done; [lia|]. intros i' Hi'. apply Hbefore. lia.
Qed.

Lemma probe_Miss_intro p tbl n : forall i,
  (forall i', i <= i' < i + Z.of_nat n ->
     exists s', slot_at tbl i' = Some s' /\ p (Slot.key s') = false) ->
  probe p tbl n i = Miss.
Proof.
  induction n as [|n IH]; intros i Hall; simpl; [done|].
  destruct (Hall i) as (s' & -> & ->); [lia|].
  apply IH. intros i' Hi'. apply Hall. lia.
Qed.

(** Inside the array a walk never faults. *)
Lemma probe_no_Fault p tbl n i :
  0 <= i -> i + Z.of_nat n <= Z.of_nat (length tbl) ->
  probe p tbl n i <> Fault.
Proof.
  intros Hi Hn Hf. apply probe_Fault_inv in Hf as (i' & Hr & Hnone).
  assert (is_Some (slot_at tbl i')) as [s Hs] by (apply slot_at_is_Some; lia).
  congruence.
Qed.
End probe_facts.

(** ** The probe loops and the operations in closed form *)
Section loop_facts.
Context {data_type : Type}.
Variables (max_tries illegal_key : Z) (illegal_data : data_type).
Implicit Types (tbl : list (Slot.t data_type)) (st : Stat.t).

Lemma seqZ_snoc_shift (tr : list Z) slot k :
  0 <= k -> (tr ++ [slot]) ++ seqZ (slot + 1) k = tr ++ seqZ slot (k + 1).
Proof.
  intros Hk. rewrite <- (assoc_L (++)). f_equal.
  rewrite (seqZ_cons slot (k + 1)) by lia. simpl. do 2 f_equal; lia.
Qed.

Lemma insert_loop_eq key data n : forall slot nm b hf sz ms st tbl tr,
  insert_loop illegal_key n slot key data
      (mk_world (mk_hashtable nm b hf sz ms st tbl) tr) =
    match probe (insert_stops illegal_key key) tbl n slot with
    | Fault => None
    | Miss =>
        Some (None,
              mk_world (mk_hashtable nm b hf sz ms (Nat.iter n Stat.incr_collision st) tbl)
                       (tr ++ seqZ slot (Z.of_nat n)))
    | Hit j s =>
        Some (Some 1,
              mk_world
                (mk_hashtable nm b hf sz ms
                   ((if Slot.key s =? illegal_key then id else Stat.incr_overwritten)
                      (Nat.iter (Z.to_nat (j - slot)) Stat.incr_collision st))
                   (<[Z.to_nat j := Slot.mk key data]> tbl))
                (tr ++ seqZ slot (j - slot) ++ [j; j]))
    end.
Proof.
  induction n as [|n IH]; intros slot nm b hf sz ms st tbl tr.
  - simpl. unfold ret. by rewrite app_nil_r.
  - cbn [insert_loop probe].
    unfold bind at 1, HASHTABLE_CMPXCHG, access. cbn [ht __table touched].
    destruct (slot_at tbl slot) as [s|] eqn:Es; [|done].
    unfold insert_stops at 1.
    apply slot_at_Some in Es as [Hslot Es].
    destruct (Slot.key s =? illegal_key) eqn:Hk.
    + cbn [orb]. unfold bind, store_data, access, set_table, ret, slot_at. cbn.
      destruct (Z.leb_spec 0 slot); [|lia].
      rewrite list_lookup_insert_eq by (by eapply lookup_lt_Some).
      cbn. rewrite list_insert_insert_eq, Z.sub_diag, Hk. cbn.
      by rewrite <- (assoc_L (++)).
    + cbn [orb]. destruct (Z.eqb_spec (Slot.key s) key) as [Hk'|Hk'].
      * unfold bind, store_data, access, set_table, ret, slot_at, modify_stat, modify_ht. cbn.
        destruct (Z.leb_spec 0 slot); [|lia].
        rewrite list_lookup_insert_eq by (by eapply lookup_lt_Some).
        cbn. rewrite list_insert_insert_eq, Z.sub_diag, Hk, Hk'. cbn.
        by rewrite <- (assoc_L (++)).
      * unfold bind at 1, modify_stat, modify_ht, set_stat, set_table. cbn -[Nat.iter].
        rewrite (list_insert_id _ _ _ Es), IH.
        destruct (probe (insert_stops illegal_key key) tbl n (slot + 1))
          as [| |j sj] eqn:Ep; [done| |].
        -- rewrite Nat.iter_succ_r. do 3 f_equal.
           rewrite seqZ_snoc_shift by lia. do 2 f_equal. lia.
        -- apply probe_Hit_inv in Ep as (Hr & _).
           replace (Z.to_nat (j - slot)) with (S (Z.to_nat (j - (slot + 1)))) by lia.
           rewrite Nat.iter_succ_r. do 3 f_equal.
           rewrite !(assoc_L (++)), seqZ_snoc_shift by lia. do 3 f_equal. lia.
Qed.

Lemma find_loop_eq key n : forall slot nm b hf sz ms st tbl tr,
  find_loop n slot key (mk_world (mk_hashtable nm b hf sz ms st tbl) tr) =
    match probe (lookup_stops key) tbl n slot with
    | Fault => None
    | Miss =>
        Some (None,
              mk_world (mk_hashtable nm b hf sz ms st tbl) (tr ++ seqZ slot (Z.of_nat n)))
    | Hit j s =>
        Some (Some (1, Some (Slot.data s)),
              mk_world (mk_hashtable nm b hf sz ms (Stat.incr_search_ok st) tbl)
                       (tr ++ seqZ slot (j - slot) ++ [j; j]))
    end.
Proof.
  induction n as [|n IH]; intros slot nm b hf sz ms st tbl tr.
  - simpl. unfold ret. by rewrite app_nil_r.
  - cbn [find_loop probe].
    unfold bind at 1, load_key, access. cbn [ht __table touched].
    destruct (slot_at tbl slot) as [s|] eqn:Es; [|done].
    unfold lookup_stops at 1. unfold set_table. cbn.
    pose proof Es as Es'. apply slot_at_Some in Es' as [Hslot Es'].
    rewrite (list_insert_id _ _ _ Es').
    destruct (Slot.key s =? key) eqn:Hk.
    + unfold bind, load_data, access, modify_stat, modify_ht, ret, set_stat, set_table.
      cbn. rewrite Es. cbn. rewrite (list_insert_id _ _ _ Es'), Z.sub_diag. cbn.
      by rewrite <- (assoc_L (++)).
    + rewrite IH.
      destruct (probe (lookup_stops key) tbl n (slot + 1)) as [| |j sj] eqn:Ep; [done| |].
      * do 3 f_equal. rewrite seqZ_snoc_shift by lia. do 2 f_equal. lia.
      * apply probe_Hit_inv in Ep as (Hr & _). do 3 f_equal.
        rewrite !(assoc_L (++)), seqZ_snoc_shift by lia. do 3 f_equal. lia.
Qed.

Lemma remove_loop_eq key data n : forall slot nm b hf sz ms st tbl tr,
  remove_loop illegal_key illegal_data n slot key data
      (mk_world (mk_hashtable nm b hf sz ms st tbl) tr) =
    match probe (lookup_stops key) tbl n slot with
    | Fault => None
    | Miss =>
        Some (None,
              mk_world (mk_hashtable nm b hf sz ms st tbl) (tr ++ seqZ slot (Z.of_nat n)))
    | Hit j s =>
        Some (Some (1, if data then Some (Slot.data s) else None),
              mk_world (mk_hashtable nm b hf sz ms st
                          (<[Z.to_nat j := Slot.mk illegal_key illegal_data]> tbl))
                       (tr ++ seqZ slot (j - slot) ++ [j] ++
                          (if data then [j] else []) ++ [j; j]))
    end.
Proof.
  induction n as [|n IH]; intros slot nm b hf sz ms st tbl tr.
  - simpl. unfold ret. by rewrite app_nil_r.
  - cbn [remove_loop probe].
    unfold bind at 1, load_key, access. cbn [ht __table touched].
    destruct (slot_at tbl slot) as [s|] eqn:Es; [|done].
    unfold lookup_stops at 1. unfold set_table. cbn.
    pose proof Es as Es'. apply slot_at_Some in Es' as [Hslot Es'].
    rewrite (list_insert_id _ _ _ Es').
    assert (Hlt : (Z.to_nat slot < length tbl)%nat) by (by eapply lookup_lt_Some).
    destruct (Slot.key s =? key) eqn:Hk.
    + destruct data;
        unfold bind, load_data, store_data, store_key, access, ret, set_table; cbn;
        rewrite ?Es; cbn; rewrite ?(list_insert_id _ _ _ Es');
        unfold slot_at; destruct (Z.leb_spec 0 slot); try lia;
        rewrite ?Es'; cbn; rewrite list_lookup_insert_eq by done; cbn;
        rewrite list_insert_insert_eq, Z.sub_diag; cbn;
        by rewrite <- !(assoc_L (++)).
    + rewrite IH.
      destruct (probe (lookup_stops key) tbl n (slot + 1)) as [| |j sj] eqn:Ep; [done| |].
      * do 3 f_equal. rewrite seqZ_snoc_shift by lia. do 2 f_equal. lia.
      * apply probe_Hit_inv in Ep as (Hr & _). do 3 f_equal.
        rewrite (assoc_L (++) (tr ++ [slot])), seqZ_snoc_shift by lia.
        replace (j - (slot + 1) + 1) with (j - slot) by lia.
        by rewrite <- !(assoc_L (++)).
Qed.


Implicit Types (h : hashtable_t data_type).

Lemma hashtable_insert_eq h tr key data :
  hashtable_insert max_tries illegal_key key data (mk_world h tr) =
    let index := probe_index h key in
    let n := probe_count max_tries h key in
    match hashfunction h with
    | None => None
    | Some _ =>
        match probe (insert_stops illegal_key key) (__table h) n index with
        | Fault => None
        | Miss =>
            Some (0,
                  mk_world
                    (set_stat (Stat.incr_insert_err
                                 (Nat.iter n Stat.incr_collision
                                    (Stat.incr_insert (__stat h)))) h)
                    (tr ++ seqZ index (Z.of_nat n)))
        | Hit j s =>
            Some (1,
                  mk_world
                    (set_table (<[Z.to_nat j := Slot.mk key data]> (__table h))
                       (set_stat
                          ((if Slot.key s =? illegal_key then id else Stat.incr_overwritten)
                             (Nat.iter (Z.to_nat (j - index)) Stat.incr_collision
                                (Stat.incr_insert (__stat h)))) h))
                    (tr ++ seqZ index (j - index) ++ [j; j]))
        end
    end.
Proof.
  destruct h as [nm b [f|] sz ms st tbl]; [|done].
  unfold hashtable_insert, probe_count, probe_index.
  cbn -[Nat.iter wrap32 wrap64 Z.to_nat seqZ].
  unfold bind, get_ht, lift, ret, modify_stat, modify_ht, set_stat, set_table.
  cbn -[Nat.iter wrap32 wrap64 Z.to_nat seqZ].
  rewrite insert_loop_eq.
  by destruct (probe _ _ _ _).
Qed.

Lemma hashtable_find_eq h tr key :
  hashtable_find max_tries key (mk_world h tr) =
    let index := probe_index h key in
    let n := probe_count max_tries h key in
    match hashfunction h with
    | None => None
    | Some _ =>
        match probe (lookup_stops key) (__table h) n index with
        | Fault => None
        | Miss =>
            Some ((0, None),
                  mk_world
                    (set_stat (Stat.incr_search_err (Stat.incr_search (__stat h))) h)
                    (tr ++ seqZ index (Z.of_nat n)))
        | Hit j s =>
            Some ((1, Some (Slot.data s)),
                  mk_world
                    (set_stat (Stat.incr_search_ok (Stat.incr_search (__stat h))) h)
                    (tr ++ seqZ index (j - index) ++ [j; j]))
        end
    end.
Proof.
  destruct h as [nm b [f|] sz ms st tbl]; [|done].
  unfold hashtable_find, probe_count, probe_index.
  cbn -[wrap32 wrap64 Z.to_nat seqZ].
  unfold bind, get_ht, lift, ret, modify_stat, modify_ht, set_stat, set_table.
  cbn -[wrap32 wrap64 Z.to_nat seqZ].
  rewrite find_loop_eq.
  by destruct (probe _ _ _ _).
Qed.

Lemma hashtable_remove_eq h tr key data :
  hashtable_remove max_tries illegal_key illegal_data key data (mk_world h tr) =
    let index := probe_index h key in
    let n := probe_count max_tries h key in
    match hashfunction h with
    | None => None
    | Some _ =>
        match probe (lookup_stops key) (__table h) n index with
        | Fault => None
        | Miss =>
            Some ((0, None),
                  mk_world
                    (set_stat (Stat.incr_remove_err (Stat.incr_remove (__stat h))) h)
                    (tr ++ seqZ index (Z.of_nat n)))
        | Hit j s =>
            Some ((1, if data then Some (Slot.data s) else None),
                  mk_world
                    (set_table (<[Z.to_nat j := Slot.mk illegal_key illegal_data]> (__table h))
                       (set_stat (Stat.incr_remove (__stat h)) h))
                    (tr ++ seqZ index (j - index) ++ [j] ++
                       (if data then [j] else []) ++ [j; j]))
        end
    end.
Proof.
  destruct h as [nm b [f|] sz ms st tbl]; [|done].
  unfold hashtable_remove, probe_count, probe_index.
  cbn -[wrap32 wrap64 Z.to_nat seqZ].
  unfold bind, get_ht, lift, ret, modify_stat, modify_ht, set_stat, set_table.
  cbn -[wrap32 wrap64 Z.to_nat seqZ].
  rewrite remove_loop_eq.
  by destruct (probe _ _ _ _).
Qed.

End loop_facts.

(** ** Arithmetic of the probe window *)
Section window_facts.
Context {data_type : Type}.
Variables (max_tries : Z).
Implicit Types (h : hashtable_t data_type).

Lemma wrap32_range z : 0 <= wrap32 z < 2 ^ 32.
Proof. unfold wrap32. apply Z.mod_pos_bound. lia. Qed.

Lemma wrap32_small z : 0 <= z < 2 ^ 32 -> wrap32 z = z.
Proof. unfold wrap32. apply Z.mod_small. Qed.

Lemma wrap64_small z : 0 <= z < 2 ^ 64 -> wrap64 z = z.
Proof. unfold wrap64. apply Z.mod_small. Qed.

Lemma wrap32_le z : 0 <= z -> wrap32 z <= z.
Proof. unfold wrap32. intros. apply Z.mod_le; lia. Qed.

Lemma pow2_bits_range b : 0 <= b <= 30 -> 1 <= 2 ^ b <= 2 ^ 30.
Proof.
  intros [? ?]. split.
  - assert (0 < 2 ^ b) by (apply Z.pow_pos_nonneg; lia). lia.
  - apply Z.pow_le_mono_r; lia.
Qed.

(** With [__size = 2^bits] the index is the hash modulo [__size]. *)
Lemma probe_index_ok h key f :
  table_ok max_tries h -> hashfunction h = Some f ->
  probe_index h key = wrap32 (f key) mod __size h /\
  0 <= probe_index h key < __size h.
Proof.
  intros (Hb & Hsz & _ & _) Hf. unfold probe_index, hashtable_get_index.
  rewrite Hf, Hsz. pose proof (pow2_bits_range _ Hb) as Hp.
  rewrite wrap64_small by lia.
  replace (2 ^ bits h - 1) with (Z.ones (bits h)) by (rewrite Z.ones_equiv; lia).
  rewrite Z.land_ones by lia.
  assert (0 <= wrap32 (f key) mod 2 ^ bits h < 2 ^ bits h)
    by (apply Z.mod_pos_bound; lia).
  rewrite wrap32_small by lia. done.
Qed.

Lemma probe_count_le h key :
  0 <= max_tries -> 0 <= probe_index h key ->
  Z.of_nat (probe_count max_tries h key) <= max_tries.
Proof.
  intros Hm Hi. unfold probe_count.
  pose proof (wrap32_le (probe_index h key + max_tries)). lia.
Qed.

Lemma probe_count_eq h key :
  table_ok max_tries h -> 0 <= max_tries -> __size h + max_tries <= 2 ^ 32 ->
  Z.of_nat (probe_count max_tries h key) = max_tries.
Proof.
  intros Hok Hm Hno. unfold probe_count.
  pose proof Hok as (Hb & Hsz & Hlen & [f Hf]).
  destruct (probe_index_ok h key f) as [_ Hr]; [done..|].
  rewrite wrap32_small by lia. lia.
Qed.

(** The whole probe window lies inside the slot array. *)
Lemma probe_window_inside h key :
  table_ok max_tries h -> 0 <= max_tries ->
  0 <= probe_index h key /\
  probe_index h key + Z.of_nat (probe_count max_tries h key)
    <= Z.of_nat (length (__table h)).
Proof.
  intros Hok Hm. pose proof Hok as (Hb & Hsz & Hlen & [f Hf]).
  destruct (probe_index_ok h key f) as [_ Hr]; [done..|].
  pose proof (probe_count_le h key Hm). lia.
Qed.
End window_facts.

(** ** No access outside the slot array *)
Section bounds.
Context {data_type : Type}.
Variables (max_tries illegal_key : Z) (illegal_data : data_type).
Implicit Types (h : hashtable_t data_type).

Lemma window_accesses_intro h key (tr : list Z) m :
  table_ok max_tries h -> 0 <= max_tries ->
  0 <= m <= Z.of_nat (probe_count max_tries h key) ->
  (forall i, i ∈ tr <-> probe_index h key <= i < probe_index h key + m) ->
  window_accesses max_tries h key tr.
Proof.
  intros Hok Hm Hr Htr.
  destruct (probe_window_inside max_tries h key Hok Hm) as [H0 Hin].
  pose proof (probe_count_le max_tries h key Hm H0) as Hle.
  pose proof Hok as (_ & _ & Hlen & _).
  split.
  - exists m. split; [lia|done].
  - apply Forall_forall. intros i Hi. apply Htr in Hi. lia.
Qed.

Lemma hit_trace_elems (index j i : Z) (extra : list Z) :
  index <= j -> (forall x, x ∈ extra -> x = j) ->
  i ∈ seqZ index (j - index) ++ [j] ++ extra <-> index <= i < index + (j - index + 1).
Proof.
  intros Hj Hextra. rewrite !elem_of_app, elem_of_seqZ, list_elem_of_singleton.
  split.
  - intros [?|[->|Hx]]; [lia|lia|]. apply Hextra in Hx. lia.
  - intros ?. destruct (decide (i = j)); [right; by left|left; lia].
Qed.

(** The bounds for [insert]; [find] and [remove] follow the same lines. *)
Lemma insert_in_bounds h key data :
  table_ok max_tries h -> 0 <= max_tries ->
  exists rc w,
    exec (hashtable_insert max_tries illegal_key key data) h = Some (rc, w) /\
    window_accesses max_tries h key (touched w).
Proof.
  intros Hok Hm. unfold exec. rewrite hashtable_insert_eq. cbn zeta.
  pose proof Hok as (_ & _ & _ & [f ->]).
  destruct (probe_window_inside max_tries h key Hok Hm) as [H0 Hin].
  destruct (probe _ _ _ _) as [| |j s] eqn:Ep.
  - by apply probe_no_Fault in Ep.
  - eexists _, _. split; [done|]. cbn.
    eapply window_accesses_intro; [done..| |intros i; apply elem_of_seqZ]. lia.
  - apply probe_Hit_inv in Ep as (Hr & _).
    eexists _, _. split; [done|]. cbn.
    eapply (window_accesses_intro _ _ _ (j - probe_index h key + 1)); [done..|lia|].
    intros i. apply (hit_trace_elems _ _ _ [j]); [lia|].
    by intros x ->%list_elem_of_singleton.
Qed.

Lemma find_in_bounds h key :
  table_ok max_tries h -> 0 <= max_tries ->
  exists rc w,
    exec (hashtable_find max_tries key) h = Some (rc, w) /\
    window_accesses max_tries h key (touched w).
Proof.
  intros Hok Hm. unfold exec. rewrite hashtable_find_eq. cbn zeta.
  pose proof Hok as (_ & _ & _ & [f ->]).
  destruct (probe_window_inside max_tries h key Hok Hm) as [H0 Hin].
  destruct (probe _ _ _ _) as [| |j s] eqn:Ep.
  - by apply probe_no_Fault in Ep.
  - eexists _, _. split; [done|]. cbn.
    eapply window_accesses_intro; [done..| |intros i; apply elem_of_seqZ]. lia.
  - apply probe_Hit_inv in Ep as (Hr & _).
    eexists _, _. split; [done|]. cbn.
    eapply (window_accesses_intro _ _ _ (j - probe_index h key + 1)); [done..|lia|].
    intros i. apply (hit_trace_elems _ _ _ [j]); [lia|].
    by intros x ->%list_elem_of_singleton.
Qed.

Lemma remove_in_bounds h key data :
  table_ok max_tries h -> 0 <= max_tries ->
  exists rc w,
    exec (hashtable_remove max_tries illegal_key illegal_data key data) h = Some (rc, w) /\
    window_accesses max_tries h key (touched w).
Proof.
  intros Hok Hm. unfold exec. rewrite hashtable_remove_eq. cbn zeta.
  pose proof Hok as (_ & _ & _ & [f ->]).
  destruct (probe_window_inside max_tries h key Hok Hm) as [H0 Hin].
  destruct (probe _ _ _ _) as [| |j s] eqn:Ep.
  - by apply probe_no_Fault in Ep.
  - eexists _, _. split; [done|]. cbn.
    eapply window_accesses_intro; [done..| |intros i; apply elem_of_seqZ]. lia.
  - apply probe_Hit_inv in Ep as (Hr & _).
    eexists _, _. split; [done|]. cbn -[app].
    eapply (window_accesses_intro _ _ _ (j - probe_index h key + 1)); [done..|lia|].
    intros i. apply hit_trace_elems; [lia|].
    intros x. destruct data; cbn; rewrite ?elem_of_cons, ?elem_of_nil; tauto.
Qed.

(** The three operations leave [table_ok] and the probe windows as they
    are: only slot contents and counters change. *)
Lemma set_stat_table_ok h st : table_ok max_tries h -> table_ok max_tries (set_stat st h).
Proof. by destruct h. Qed.

Lemma set_table_table_ok h tbl :
  length tbl = length (__table h) ->
  table_ok max_tries h -> table_ok max_tries (set_table tbl h).
Proof. destruct h. unfold table_ok. cbn. by intros ->. Qed.
(** C8. On a table with [__size = 1 << bits] and [__size + max_tries]
    slots, [insert], [find] and [remove] run without a fault, and the
    slots they touch are the first few (at most [max_tries]) slots from
    index [hash & (__size - 1)] on, all of them below
    [__size + max_tries]. *)
Theorem probes_stay_in_array (h : hashtable_t data_type) key data want :
  table_ok max_tries h -> 0 <= max_tries ->
  (exists f, hashfunction h = Some f /\
             probe_index h key = Z.land (wrap32 (f key)) (__size h - 1) /\
             0 <= probe_index h key < __size h) /\
  (exists rc w,
     exec (hashtable_insert max_tries illegal_key key data) h = Some (rc, w) /\
     window_accesses max_tries h key (touched w)) /\
  (exists rc w,
     exec (hashtable_find max_tries key) h = Some (rc, w) /\
     window_accesses max_tries h key (touched w)) /\
  (exists rc w,
     exec (hashtable_remove max_tries illegal_key illegal_data key want) h = Some (rc, w) /\
     window_accesses max_tries h key (touched w)).
Proof.
  intros Hok Hm. split; [|split; [|split]].
  - pose proof Hok as (Hb & Hsz & _ & [f Hf]). exists f. split; [done|].
    destruct (probe_index_ok max_tries h key f Hok Hf) as [_ Hr]. split; [|done].
    unfold probe_index, hashtable_get_index. rewrite Hf.
    pose proof (pow2_bits_range _ Hb).
    rewrite wrap64_small by lia. apply wrap32_small.
    unfold probe_index, hashtable_get_index in Hr. rewrite Hf in Hr.
    rewrite wrap64_small in Hr by lia.
    pose proof (wrap32_range (Z.land (wrap32 (f key)) (__size h - 1))).
    assert (0 <= Z.land (wrap32 (f key)) (__size h - 1)).
    { apply Z.land_nonneg. left. apply wrap32_range. }
    assert (Z.land (wrap32 (f key)) (__size h - 1) <= __size h - 1); [|lia].
    replace (__size h - 1) with (Z.ones (bits h)) by (rewrite Z.ones_equiv; lia).
    rewrite Z.land_ones by lia. rewrite Z.ones_equiv.
    pose proof (Z.mod_pos_bound (wrap32 (f key)) (2 ^ bits h)). lia.
  - by apply insert_in_bounds.
  - by apply find_in_bounds.
  - by apply remove_in_bounds.
Qed.
End bounds.

(** ** Construction *)
Section init_facts.
Context {data_type : Type}.
Variables (max_tries illegal_key : Z) (illegal_data : data_type) (sizeof_slot : Z).
Variable hashtable_alloc : Z -> option (list (Slot.t data_type)).
Implicit Types (h : hashtable_t data_type) (tbl : list (Slot.t data_type)).

(** [init_loop] either faults or frees the [n] slots from [i] on and leaves
    every other slot and every other field alone. *)
Lemma init_loop_inv n : forall i nm b hf sz ms st tbl tr w',
  0 <= i ->
  init_loop illegal_key illegal_data n i
      (mk_world (mk_hashtable nm b hf sz ms st tbl) tr) = Some (tt, w') ->
  exists tbl' tr',
    w' = mk_world (mk_hashtable nm b hf sz ms st tbl') tr' /\
    length tbl' = length tbl /\
    (n = 0%nat \/ i + Z.of_nat n <= Z.of_nat (length tbl)) /\
    (forall k, i <= k < i + Z.of_nat n ->
       slot_at tbl' k = Some (Slot.mk illegal_key illegal_data)) /\
    (forall k, 0 <= k < i -> slot_at tbl' k = slot_at tbl k).
Proof.
  induction n as [|n IH]; intros i nm b hf sz ms st tbl tr w' Hi.
  - cbn. unfold ret. intros [= <-]. exists tbl, tr.
    repeat split; first [done | by left | intros; lia].
  - cbn [init_loop]. unfold bind at 1, hashtable_init_slot, bind at 1, store_key, access.
    cbn [ht __table touched].
    destruct (slot_at tbl i) as [s|] eqn:Es; [|done].
    unfold store_data, access, set_table. cbn.
    rewrite (slot_at_insert_eq _ _ _ _ Es). cbn.
    rewrite list_insert_insert_eq.
    intros H1. apply IH in H1 as (tbl' & tr' & -> & Hlen & Hfit & Hfree & Hkeep); [|lia].
    rewrite length_insert in Hlen, Hfit.
    assert (0 <= i < Z.of_nat (length tbl)) by (apply slot_at_is_Some; eauto).
    exists tbl', tr'. repeat split; [done|right; lia| |].
    + intros k Hk. destruct (decide (k = i)) as [->|Hne]; [|apply Hfree; lia].
      rewrite Hkeep by lia. by eapply slot_at_insert_eq.
    + intros k Hk. rewrite Hkeep by lia. rewrite slot_at_insert by lia.
      case_decide; [lia|done].
Qed.

Lemma init_loop_total n : forall i nm b hf sz ms st tbl tr,
  0 <= i -> i + Z.of_nat n <= Z.of_nat (length tbl) ->
  is_Some (init_loop illegal_key illegal_data n i
             (mk_world (mk_hashtable nm b hf sz ms st tbl) tr)).
Proof.
  induction n as [|n IH]; intros i nm b hf sz ms st tbl tr Hi Hfit; [by eexists|].
  cbn [init_loop]. unfold bind at 1, hashtable_init_slot, bind at 1, store_key, access.
  cbn [ht __table touched].
  destruct (slot_at_is_Some tbl i) as [_ [s Hs]]; [lia|]. rewrite Hs.
  unfold store_data, access, set_table. cbn.
  rewrite (slot_at_insert_eq _ _ _ _ Hs). cbn.
  apply IH; [lia|]. rewrite !length_insert. lia.
Qed.

(** What [init] computes, given what the allocator answers. *)
Lemma hashtable_init_inv h rc w :
  exec (hashtable_init max_tries illegal_key illegal_data sizeof_slot hashtable_alloc) h
    = Some (rc, w) ->
  0 <= bits h <= 30 /\
  let slots := wrap64 (Z.shiftl 1 (bits h) + max_tries) in
  let memory_size := wrap64 (sizeof_slot * slots) in
  match hashtable_alloc memory_size with
  | None => rc = 0 /\ ht w = h
  | Some p =>
      rc = 1 /\
      name (ht w) = name h /\ bits (ht w) = bits h /\ __stat (ht w) = __stat h /\
      hashfunction (ht w) =
        match hashfunction h with None => Some hash32shift | Some f => Some f end /\
      __size (ht w) = Z.shiftl 1 (bits h) /\
      __memory_size (ht w) = memory_size /\
      length (__table (ht w)) = length p /\
      (slots = 0 \/ slots <= Z.of_nat (length p)) /\
      forall k, 0 <= k < slots ->
        slot_at (__table (ht w)) k = Some (Slot.mk illegal_key illegal_data)
  end.
Proof.
  unfold exec, hashtable_init, hashtable_memory_size, shl_one.
  destruct h as [nm b hf sz ms st tbl]. cbn [bits hashfunction name __stat].
  unfold bind at 1, get_ht. cbn [ht bits].
  destruct (Z.leb_spec 0 b), (Z.leb_spec b 30); cbn [andb]; try done.
  unfold bind at 1, lift, ret at 1. intros H1. split; [lia|]. cbn zeta.
  destruct (hashtable_alloc _) as [p|]; [|by injection H1 as <- <-].
  assert (0 <= wrap64 (Z.shiftl 1 b + max_tries)) as Hslots
    by (unfold wrap64; apply Z.mod_pos_bound; lia).
  revert H1. unfold bind, modify_ht, set_hashfunction, set_size, set_memory_size, set_table, ret.
  destruct hf as [f|]; cbn [ht touched name bits hashfunction __size __memory_size __stat __table];
    (destruct (init_loop _ _ _ _ _) as [[[] w1]|] eqn:Eloop; [|done]);
    intros [= <- <-];
    (apply init_loop_inv in Eloop
       as (tbl' & tr' & -> & Hlen & Hfit & Hfree & _); [|done]);
    cbn [ht touched name bits hashfunction __size __memory_size __stat __table];
    (repeat split; try done;
     [destruct Hfit as [Hz|Hfit]; [left|right]; lia
     |intros k Hk; apply Hfree; lia]).
Qed.

(** C9. When [init] returns 1 the slot array has exactly
    [(1 << bits) + max_tries] slots, and every slot has key [illegal_key]
    and payload [illegal_data]. *)
Theorem init_success_all_free h w :
  0 < sizeof_slot -> 0 <= max_tries < 2 ^ 31 -> alloc_exact sizeof_slot hashtable_alloc ->
  exec (hashtable_init max_tries illegal_key illegal_data sizeof_slot hashtable_alloc) h
    = Some (1, w) ->
  Z.of_nat (length (__table (ht w))) = Z.shiftl 1 (bits h) + max_tries /\
  all_free illegal_key illegal_data (__table (ht w)).
Proof.
  intros Hsz Hm Halloc Hrun.
  apply hashtable_init_inv in Hrun as [Hb Hrun]. cbn zeta in Hrun.
  rewrite Z.shiftl_1_l in *.
  pose proof (pow2_bits_range _ Hb) as Hp.
  rewrite (wrap64_small (2 ^ bits h + max_tries)) in Hrun by lia.
  destruct (hashtable_alloc _) as [p|] eqn:Ep; [|by destruct Hrun].
  destruct Hrun as (_ & _ & _ & _ & _ & _ & _ & Hlen & Hfit & Hfree).
  apply Halloc in Ep.
  set (slots := 2 ^ bits h + max_tries) in *.
  assert (Z.of_nat (length p) <= slots) as Hup.
  { rewrite Ep. apply Z.div_le_upper_bound; [done|].
    unfold wrap64. apply Z.mod_le; [nia|lia]. }
  assert (Z.of_nat (length (__table (ht w))) = slots) as Hexact by lia.
  split; [done|].
  apply Forall_lookup. intros k s Hk.
  assert (slot_at (__table (ht w)) (Z.of_nat k) = Some s) as Hs
    by (apply slot_at_Some; rewrite Nat2Z.id; split; [lia|done]).
  rewrite Hfree in Hs; [by injection Hs as <-|].
  apply lookup_lt_Some in Hk. lia.
Qed.

(** X1. [init] does return 1 when the allocator answers with a block and the
    sizes do not overflow; the descriptor is then [table_ok]. *)
Lemma init_returns h p :
  0 < sizeof_slot -> 0 <= max_tries < 2 ^ 31 -> 0 <= bits h <= 30 ->
  sizeof_slot * (2 ^ bits h + max_tries) < 2 ^ 64 ->
  alloc_exact sizeof_slot hashtable_alloc ->
  hashtable_alloc (sizeof_slot * (2 ^ bits h + max_tries)) = Some p ->
  exists w,
    exec (hashtable_init max_tries illegal_key illegal_data sizeof_slot hashtable_alloc) h
      = Some (1, w) /\
    table_ok max_tries (ht w).
Proof.
  intros Hsz Hm Hb Hno Halloc Hp.
  pose proof (pow2_bits_range _ Hb) as Hpow.
  assert (Z.of_nat (length p) = 2 ^ bits h + max_tries) as Hlen.
  { rewrite (Halloc _ _ Hp), Z.mul_comm. apply Z.div_mul. lia. }
  assert (exists rc w,
    exec (hashtable_init max_tries illegal_key illegal_data sizeof_slot hashtable_alloc) h
      = Some (rc, w)) as (rc & w & Hrun).
  { unfold exec, hashtable_init, hashtable_memory_size, shl_one.
    destruct h as [nm b hf sz ms st tbl]. cbn [bits hashfunction] in *.
    unfold bind at 1, get_ht. cbn [ht bits hashfunction].
    destruct (Z.leb_spec 0 b), (Z.leb_spec b 30); try lia. cbn [andb].
    rewrite Z.shiftl_1_l, (wrap64_small (2 ^ b + max_tries)) by lia.
    rewrite wrap64_small by nia.
    unfold bind at 1, lift, ret at 1. rewrite Hp.
    unfold bind, modify_ht, set_hashfunction, set_size, set_memory_size, set_table, ret.
    destruct hf as [f|];
      cbn [ht touched name bits hashfunction __size __memory_size __stat __table].
    all: rewrite (wrap64_small (2 ^ b + max_tries)) by lia.
    all: (edestruct (init_loop_total (Z.to_nat (2 ^ b + max_tries)) 0) as [[[] w1] ->];
       [done|rewrite Z2Nat.id by lia; rewrite Hlen; lia|by eexists _, _]). }
  exists w. pose proof Hrun as Hinv.
  apply hashtable_init_inv in Hinv as [_ Hinv]. cbn zeta in Hinv.
  rewrite Z.shiftl_1_l in Hinv.
  rewrite (wrap64_small (2 ^ bits h + max_tries)) in Hinv by lia.
  rewrite wrap64_small in Hinv by nia. rewrite Hp in Hinv.
  destruct Hinv as (-> & _ & Hbits & _ & Hhf & Hsize & _ & Hlen' & _).
  split; [done|]. unfold table_ok.
  rewrite Hbits, Hsize, Hhf, Hlen', Hlen.
  repeat split; try lia. by destruct (hashfunction h).
Qed.
End init_facts.

(** ** What the operations do to the table *)
Section op_facts.
Context {data_type : Type}.
Variables (max_tries illegal_key : Z) (illegal_data : data_type).
Implicit Types (h : hashtable_t data_type) (tbl : list (Slot.t data_type)).

Lemma probe_index_set h st tbl key :
  probe_index (set_table tbl (set_stat st h)) key = probe_index h key.
Proof. by destruct h. Qed.

Lemma probe_count_set h st tbl key :
  probe_count max_tries (set_table tbl (set_stat st h)) key = probe_count max_tries h key.
Proof. by destruct h. Qed.

(** [insert] answers 0 or 1; 0 exactly when the walk finds neither a free
    slot nor a slot of the key, and then the slot array is untouched. *)
Lemma insert_fails_inv h key data w :
  exec (hashtable_insert max_tries illegal_key key data) h = Some (0, w) ->
  probe (insert_stops illegal_key key) (__table h)
        (probe_count max_tries h key) (probe_index h key) = Miss /\
  ht w = set_stat (Stat.incr_insert_err
                     (Nat.iter (probe_count max_tries h key) Stat.incr_collision
                        (Stat.incr_insert (__stat h)))) h.
Proof.
  unfold exec. rewrite hashtable_insert_eq. cbn zeta.
  destruct (hashfunction h); [|done].
  destruct (probe _ _ _ _); [done| |done]. by intros [= <-].
Qed.

Lemma insert_succeeds_inv h key data rc w :
  exec (hashtable_insert max_tries illegal_key key data) h = Some (rc, w) ->
  rc <> 0 ->
  rc = 1 /\
  exists j s,
    probe (insert_stops illegal_key key) (__table h)
          (probe_count max_tries h key) (probe_index h key) = Hit j s /\
    ht w = set_table (<[Z.to_nat j := Slot.mk key data]> (__table h))
             (set_stat
                ((if Slot.key s =? illegal_key then id else Stat.incr_overwritten)
                   (Nat.iter (Z.to_nat (j - probe_index h key)) Stat.incr_collision
                      (Stat.incr_insert (__stat h)))) h).
Proof.
  unfold exec. rewrite hashtable_insert_eq. cbn zeta.
  destruct (hashfunction h); [|done].
  destruct (probe _ _ _ _) as [| |j s]; [done| |].
  - by intros [= <- <-].
  - intros [= <- <-] _. split; [done|]. by exists j, s.
Qed.

Lemma remove_fails_inv h key data out w :
  exec (hashtable_remove max_tries illegal_key illegal_data key data) h
    = Some ((0, out), w) ->
  out = None /\
  ht w = set_stat (Stat.incr_remove_err (Stat.incr_remove (__stat h))) h.
Proof.
  unfold exec. rewrite hashtable_remove_eq. cbn zeta.
  destruct (hashfunction h); [|done].
  destruct (probe _ _ _ _); [done| |done]. by intros [= <- <-].
Qed.

(** C7. A failed [insert] and a failed [remove] leave every slot of the
    array as it was: the key and the payload of each slot are unchanged. *)
Theorem failed_operation_keeps_slots h key :
  (forall data w,
     exec (hashtable_insert max_tries illegal_key key data) h = Some (0, w) ->
     __table (ht w) = __table h) /\
  (forall data out w,
     exec (hashtable_remove max_tries illegal_key illegal_data key data) h
       = Some ((0, out), w) ->
     __table (ht w) = __table h).
Proof.
  split.
  - intros data w [_ ->]%insert_fails_inv. by destruct h.
  - intros data out w [_ ->]%remove_fails_inv. by destruct h.
Qed.

Lemma iter_incr_collision n st :
  Nat.iter n Stat.incr_collision st =
    Stat.mk (Stat.insert st) (Stat.remove st) (Stat.search st)
            (Nat.iter n (fun c => wrap64 (c + 1)) (Stat.collision st))
            (Stat.overwritten st) (Stat.insert_err st) (Stat.remove_err st)
            (Stat.search_ok st) (Stat.search_err st).
Proof.
  induction n as [|n IH]; [by destruct st|].
  rewrite !Nat.iter_succ, IH. done.
Qed.

(** C2, as the code has it.  Every call of [insert] adds one to the
    [insert] counter, whatever it returns.  [insert_err] gets one more
    exactly when the call returns 0, and then [collision] has been bumped
    once for each slot of the probe window; [overwritten] can only move
    when the call returns 1.  The counters of [remove] and [find] stay. *)
Theorem insert_counters h key data rc w :
  exec (hashtable_insert max_tries illegal_key key data) h = Some (rc, w) ->
  let st := __stat h in
  let st' := __stat (ht w) in
  (rc = 0 \/ rc = 1) /\
  Stat.insert st' = wrap64 (Stat.insert st + 1) /\
  Stat.insert_err st' =
    (if rc =? 0 then wrap64 (Stat.insert_err st + 1) else Stat.insert_err st) /\
  (rc = 0 ->
   Stat.collision st' =
     Nat.iter (probe_count max_tries h key) (fun c => wrap64 (c + 1)) (Stat.collision st) /\
   Stat.overwritten st' = Stat.overwritten st) /\
  Stat.remove st' = Stat.remove st /\ Stat.remove_err st' = Stat.remove_err st /\
  Stat.search st' = Stat.search st /\ Stat.search_ok st' = Stat.search_ok st /\
  Stat.search_err st' = Stat.search_err st.
Proof.
  intros Hrun. destruct (decide (rc = 0)) as [->|Hrc].
  - apply insert_fails_inv in Hrun as [_ ->]. cbn zeta.
    rewrite iter_incr_collision. destruct h as [? ? ? ? ? st ?]. cbn.
    repeat split; auto.
  - apply insert_succeeds_inv in Hrun as (-> & j & s & _ & ->); [|done]. cbn zeta.
    rewrite iter_incr_collision. destruct h as [? ? ? ? ? st ?]. cbn.
    destruct (Slot.key s =? illegal_key); cbn; repeat split; auto; done.
Qed.

Lemma find_hit h key j s :
  is_Some (hashfunction h) ->
  probe (lookup_stops key) (__table h)
        (probe_count max_tries h key) (probe_index h key) = Hit j s ->
  exists w, exec (hashtable_find max_tries key) h = Some ((1, Some (Slot.data s)), w) /\
            __table (ht w) = __table h.
Proof.
  intros [f Hf] Hp. unfold exec. rewrite hashtable_find_eq. cbn zeta.
  rewrite Hf, Hp. eexists. split; [done|]. by destruct h.
Qed.

Lemma insert_Some_hashfunction h key data r :
  exec (hashtable_insert max_tries illegal_key key data) h = Some r ->
  is_Some (hashfunction h).
Proof.
  unfold exec. rewrite hashtable_insert_eq. cbn zeta.
  by destruct (hashfunction h).
Qed.

Lemma hashfunction_set h st tbl :
  hashfunction (set_table tbl (set_stat st h)) = hashfunction h.
Proof. by destruct h. Qed.

Lemma table_set h st tbl : __table (set_table tbl (set_stat st h)) = tbl.
Proof. by destruct h. Qed.

(** After a successful [insert] of [key] the walk of [find] and [remove]
    stops on the slot just written. *)
Lemma lookup_after_insert h key data w :
  exec (hashtable_insert max_tries illegal_key key data) h = Some (1, w) ->
  exists j,
    probe_index h key <= j < probe_index h key + Z.of_nat (probe_count max_tries h key) /\
    __table (ht w) = <[Z.to_nat j := Slot.mk key data]> (__table h) /\
    probe (lookup_stops key) (__table (ht w))
          (probe_count max_tries (ht w) key) (probe_index (ht w) key)
      = Hit j (Slot.mk key data).
Proof.
  intros Hrun.
  apply insert_succeeds_inv in Hrun as (_ & j & s & Hp & ->); [|done].
  apply probe_Hit_inv in Hp as (Hr & Hs & Hstop & Hbefore).
  pose proof Hs as [Hj _]%slot_at_Some.
  exists j. rewrite probe_index_set, probe_count_set, table_set.
  split; [done|]. split; [done|].
  apply probe_Hit_intro; [done|by eapply slot_at_insert_eq| |].
  - unfold lookup_stops. cbn. apply Z.eqb_refl.
  - intros i' Hi'. destruct (Hbefore i' Hi') as (s' & Hs' & Hns').
    exists s'. pose proof Hs' as [? _]%slot_at_Some.
    rewrite slot_at_insert by lia. rewrite decide_False by lia.
    split; [done|]. unfold insert_stops in Hns'. unfold lookup_stops.
    by apply orb_false_iff in Hns' as [_ ?].
Qed.

(** C5, as the code has it.  Whenever [insert(key, data)] returns 1, a
    [find(key)] that follows returns 1 and delivers [data]. *)
Theorem find_after_insert h key data w :
  exec (hashtable_insert max_tries illegal_key key data) h = Some (1, w) ->
  exists w',
    exec (hashtable_find max_tries key) (ht w) = Some ((1, Some data), w').
Proof.
  intros Hrun.
  pose proof (insert_Some_hashfunction _ _ _ _ Hrun) as Hf.
  pose proof Hrun as (_ & j & s & _ & Hw)%insert_succeeds_inv; [|done].
  apply lookup_after_insert in Hrun as (j' & _ & _ & Hp).
  apply find_hit in Hp as (w' & Hfind & _); [by exists w'|].
  by rewrite Hw, hashfunction_set.
Qed.

(** C10. With [key = illegal_key], when [j] is the first free slot of the
    probe window, [insert] returns 1 and writes [data] into slot [j], whose
    key stays [illegal_key]; a [find(illegal_key)] that follows returns 1
    and delivers [data]. *)
Theorem insert_illegal_key h data j s :
  is_Some (hashfunction h) ->
  probe_index h illegal_key <= j
    < probe_index h illegal_key + Z.of_nat (probe_count max_tries h illegal_key) ->
  slot_at (__table h) j = Some s -> Slot.key s = illegal_key ->
  (forall i, probe_index h illegal_key <= i < j ->
     exists s', slot_at (__table h) i = Some s' /\ Slot.key s' <> illegal_key) ->
  exists w w',
    exec (hashtable_insert max_tries illegal_key illegal_key data) h = Some (1, w) /\
    __table (ht w) = <[Z.to_nat j := Slot.mk illegal_key data]> (__table h) /\
    slot_at (__table (ht w)) j = Some (Slot.mk illegal_key data) /\
    exec (hashtable_find max_tries illegal_key) (ht w) = Some ((1, Some data), w').
Proof.
  intros [f Hf] Hr Hs Hk Hbefore.
  assert (probe (insert_stops illegal_key illegal_key) (__table h)
            (probe_count max_tries h illegal_key) (probe_index h illegal_key)
          = Hit j s) as Hp.
  { apply probe_Hit_intro; [done..| |].
    - unfold insert_stops. by rewrite Hk, Z.eqb_refl.
    - intros i Hi. destruct (Hbefore i Hi) as (s' & Hs' & Hne).
      exists s'. split; [done|]. unfold insert_stops.
      by apply Z.eqb_neq in Hne as ->. }
  assert (exists w,
    exec (hashtable_insert max_tries illegal_key illegal_key data) h = Some (1, w))
    as [w Hrun].
  { unfold exec. rewrite hashtable_insert_eq. cbn zeta. rewrite Hf, Hp. by eexists. }
  pose proof Hrun as (_ & j0 & s0 & Hp0 & Hw)%insert_succeeds_inv; [|done].
  rewrite Hp in Hp0. injection Hp0 as <- <-.
  pose proof Hrun as (j' & _ & _ & Hlook)%lookup_after_insert.
  apply find_hit in Hlook as (w' & Hfind & _);
    [|by rewrite Hw, hashfunction_set, Hf].
  exists w, w'. rewrite Hw, table_set in *.
  repeat split; try done. by eapply slot_at_insert_eq.
Qed.

(** Two slots of a list that satisfy [P] make the filtered list at least
    two long. *)
Lemma filter_two {A} (P : A -> Prop) `{!forall x, Decision (P x)}
    (l : list A) (k1 k2 : nat) x1 x2 :
  (k1 < k2)%nat -> l !! k1 = Some x1 -> l !! k2 = Some x2 -> P x1 -> P x2 ->
  (2 <= length (filter P l))%nat.
Proof.
  intros Hlt H1 H2 P1 P2.
  rewrite <- (take_drop k2 l), filter_app, length_app.
  assert (x1 ∈ filter P (take k2 l)) as Hin1.
  { apply list_elem_of_filter. split; [done|].
    apply list_elem_of_lookup. exists k1. by rewrite lookup_take_lt. }
  assert (x2 ∈ filter P (drop k2 l)) as Hin2.
  { apply list_elem_of_filter. split; [done|].
    apply list_elem_of_lookup. exists 0%nat. by rewrite lookup_drop, Nat.add_0_r. }
  destruct (filter P (take k2 l)); [by apply elem_of_nil in Hin1|].
  destruct (filter P (drop k2 l)); [by apply elem_of_nil in Hin2|].
  cbn. lia.
Qed.

Lemma probe_window_lookup h key i :
  probe_index h key <= i < probe_index h key + Z.of_nat (probe_count max_tries h key) ->
  0 <= probe_index h key ->
  probe_window max_tries h key !! Z.to_nat (i - probe_index h key)
    = slot_at (__table h) i.
Proof.
  intros Hr H0. unfold probe_window, slot_at.
  destruct (Z.leb_spec 0 i); [|lia].
  rewrite lookup_take_lt by lia. rewrite lookup_drop. f_equal. lia.
Qed.

(** When at most one slot of the probe window holds [key], two slots of
    the window that hold it are the same slot. *)
Lemma holders_unique h key i1 i2 s1 s2 :
  (holders max_tries h key <= 1)%nat ->
  0 <= probe_index h key ->
  probe_index h key <= i1 < probe_index h key + Z.of_nat (probe_count max_tries h key) ->
  probe_index h key <= i2 < probe_index h key + Z.of_nat (probe_count max_tries h key) ->
  slot_at (__table h) i1 = Some s1 -> Slot.key s1 = key ->
  slot_at (__table h) i2 = Some s2 -> Slot.key s2 = key ->
  i1 = i2.
Proof.
  intros Hle H0 Hr1 Hr2 Hs1 Hk1 Hs2 Hk2.
  rewrite <- (probe_window_lookup h key) in Hs1, Hs2 by done.
  unfold holders in Hle.
  destruct (Z.lt_trichotomy i1 i2) as [Hlt|[Heq|Hgt]]; [|done|].
  - pose proof (filter_two (fun s => Slot.key s = key) _
                  (Z.to_nat (i1 - probe_index h key)) (Z.to_nat (i2 - probe_index h key))
                  s1 s2 ltac:(lia) Hs1 Hs2 Hk1 Hk2). lia.
  - pose proof (filter_two (fun s => Slot.key s = key) _
                  (Z.to_nat (i2 - probe_index h key)) (Z.to_nat (i1 - probe_index h key))
                  s2 s1 ltac:(lia) Hs2 Hs1 Hk2 Hk1). lia.
Qed.

Lemma insert_table_ok h key data rc w :
  table_ok max_tries h ->
  exec (hashtable_insert max_tries illegal_key key data) h = Some (rc, w) ->
  table_ok max_tries (ht w).
Proof.
  intros Hok Hrun. destruct (decide (rc = 0)) as [->|Hrc].
  - apply insert_fails_inv in Hrun as [_ ->]. by apply set_stat_table_ok.
  - apply insert_succeeds_inv in Hrun as (_ & j & s & _ & ->); [|done].
    apply set_table_table_ok, set_stat_table_ok; [|done].
    destruct h. cbn. apply length_insert.
Qed.

(** When the walk for [key] stops on slot [j] and no other slot of the window
    holds [key], [remove] clears slot [j] and a [find] that follows misses. *)
Lemma remove_then_find h key j s :
  table_ok max_tries h -> 0 <= max_tries -> key <> illegal_key ->
  probe (lookup_stops key) (__table h)
        (probe_count max_tries h key) (probe_index h key) = Hit j s ->
  (holders max_tries h key <= 1)%nat ->
  exists w2 w3,
    exec (hashtable_remove max_tries illegal_key illegal_data key true) h
      = Some ((1, Some (Slot.data s)), w2) /\
    exec (hashtable_find max_tries key) (ht w2) = Some ((0, None), w3).
Proof.
  intros Hok Hm Hkey Hp Hone.
  pose proof Hok as (_ & _ & _ & [f Hf]).
  destruct (probe_window_inside max_tries h key Hok Hm) as [H0 Hin].
  pose proof (probe_Hit_inv _ _ _ _ _ _ Hp) as (Hr & Hsj & Hkj & _).
  apply Z.eqb_eq in Hkj.
  eexists _, _. split.
  - unfold exec. rewrite hashtable_remove_eq. cbn zeta. by rewrite Hf, Hp.
  - cbn [ht]. unfold exec. rewrite hashtable_find_eq. cbn zeta.
    rewrite hashfunction_set, Hf, probe_index_set, probe_count_set, table_set.
    rewrite (probe_Miss_intro (lookup_stops key)); [done|].
    intros i Hi. rewrite slot_at_insert by lia.
    case_decide as Hij.
    + subst i. rewrite Hsj. eexists. split; [done|].
      unfold lookup_stops. cbn. by apply Z.eqb_neq.
    + destruct (slot_at_is_Some (__table h) i) as [_ [s' Hs']]; [lia|].
      exists s'. split; [done|]. unfold lookup_stops. apply Z.eqb_neq. intros Hk'.
      apply Hij. by eapply (holders_unique h key i j s' s Hone H0).
Qed.

(** C4, as the code has it.  Whenever [insert(key, data)] returns 1 and
    leaves [key] in one slot only of its probe window, [remove(key)]
    returns 1 and delivers [data], and a [find(key)] that follows
    returns 0. *)
Theorem remove_after_insert h key data w1 :
  table_ok max_tries h -> 0 <= max_tries -> key <> illegal_key ->
  exec (hashtable_insert max_tries illegal_key key data) h = Some (1, w1) ->
  (holders max_tries (ht w1) key <= 1)%nat ->
  exists w2 w3,
    exec (hashtable_remove max_tries illegal_key illegal_data key true) (ht w1)
      = Some ((1, Some data), w2) /\
    exec (hashtable_find max_tries key) (ht w2) = Some ((0, None), w3).
Proof.
  intros Hok Hm Hkey Hrun Hone.
  pose proof (insert_table_ok _ _ _ _ _ Hok Hrun) as Hok1.
  apply lookup_after_insert in Hrun as (j & _ & _ & Hp).
  change data with (Slot.data (Slot.mk key data)) at 1.
  by eapply remove_then_find.
Qed.
End op_facts.

(** ** One slot per key, as long as nothing is removed *)
Section uniqueness.
Context {data_type : Type}.
Variables (max_tries illegal_key : Z) (illegal_data : data_type).
Implicit Types (h : hashtable_t data_type) (tbl : list (Slot.t data_type)).

Lemma probe_index_nonneg h key : 0 <= probe_index h key.
Proof.
  unfold probe_index. destruct (hashfunction h); [|done]. apply wrap32_range.
Qed.

Lemma filter_two_inv {A} (P : A -> Prop) `{!forall x, Decision (P x)} (l : list A) :
  (2 <= length (filter P l))%nat ->
  exists k1 k2 x1 x2,
    (k1 < k2)%nat /\ l !! k1 = Some x1 /\ l !! k2 = Some x2 /\ P x1 /\ P x2.
Proof.
  induction l as [|x l IH]; [cbn; lia|].
  rewrite filter_cons. case_decide as HP; cbn [length]; intros Hlen.
  - destruct (filter P l) as [|y l'] eqn:Ef; [cbn in Hlen; lia|].
    assert (y ∈ filter P l) as [HPy Hy]%list_elem_of_filter by (rewrite Ef; left).
    apply list_elem_of_lookup in Hy as [k Hk].
    exists 0%nat, (S k), x, y. repeat split; try done. lia.
  - destruct (IH Hlen) as (k1 & k2 & x1 & x2 & Hlt & H1 & H2 & P1 & P2).
    exists (S k1), (S k2), x1, x2. repeat split; try done. lia.
Qed.

Lemma well_placed_unique h key :
  well_placed max_tries illegal_key h -> key <> illegal_key ->
  (holders max_tries h key <= 1)%nat.
Proof.
  intros Hwp Hkey. apply Nat.nlt_ge. intros Hlt.
  apply filter_two_inv in Hlt as (k1 & k2 & s1 & s2 & Hk & H1 & H2 & <- & Hk2).
  pose proof (probe_index_nonneg h (Slot.key s1)) as H0.
  assert (forall k s, probe_window max_tries h (Slot.key s1) !! k = Some s ->
            slot_at (__table h) (probe_index h (Slot.key s1) + Z.of_nat k) = Some s) as Hat.
  { intros k s Hks. unfold probe_window in Hks.
    apply lookup_take_Some in Hks as [Hks _]. rewrite lookup_drop in Hks.
    apply slot_at_Some. split; [lia|]. rewrite <- Hks. f_equal. lia. }
  apply Hat in H1, H2.
  pose proof (Hwp _ _ H1 Hkey) as Hp1.
  assert (Slot.key s2 <> illegal_key) as Hkey2 by (by rewrite Hk2).
  pose proof (Hwp _ _ H2 Hkey2) as Hp2.
  rewrite Hk2, Hp1 in Hp2. injection Hp2 as Heq _. lia.
Qed.

Lemma well_placed_all_free h :
  all_free illegal_key illegal_data (__table h) -> well_placed max_tries illegal_key h.
Proof.
  intros Hfree j s [_ Hs]%slot_at_Some Hk.
  eapply Forall_lookup_1 in Hfree; [|done]. by subst s.
Qed.

Lemma well_placed_set_stat h st :
  well_placed max_tries illegal_key h -> well_placed max_tries illegal_key (set_stat st h).
Proof. by destruct h. Qed.

Lemma well_placed_insert h key data rc w :
  well_placed max_tries illegal_key h ->
  exec (hashtable_insert max_tries illegal_key key data) h = Some (rc, w) ->
  well_placed max_tries illegal_key (ht w).
Proof.
  intros Hwp Hrun. destruct (decide (rc = 0)) as [->|Hrc].
  { apply insert_fails_inv in Hrun as [_ ->]. by apply well_placed_set_stat. }
  apply insert_succeeds_inv in Hrun as (_ & j & s & Hp & ->); [|done].
  apply probe_Hit_inv in Hp as (Hr & Hs & Hstop & Hbefore).
  pose proof Hs as [Hj _]%slot_at_Some.
  intros j' s'. rewrite table_set. intros Hs' Hk'.
  rewrite probe_index_set, probe_count_set.
  pose proof Hs' as [Hj' _]%slot_at_Some.
  rewrite slot_at_insert in Hs' by lia.
  case_decide as Hjj.
  - subst j'. rewrite Hs in Hs'. injection Hs' as <-. cbn [Slot.key] in *.
    apply probe_Hit_intro; [done|by eapply slot_at_insert_eq| |].
    + unfold insert_stops. cbn. rewrite Z.eqb_refl. apply orb_true_r.
    + intros i Hi. destruct (Hbefore i Hi) as (si & Hsi & Hni).
      exists si. pose proof Hsi as [? _]%slot_at_Some.
      rewrite slot_at_insert by lia. rewrite decide_False by lia. done.
  - pose proof (Hwp j' s' Hs' Hk') as Hp'.
    apply probe_Hit_inv in Hp' as (Hr' & _ & Hstop' & Hbefore').
    apply probe_Hit_intro; [done| |done|].
    + rewrite slot_at_insert by lia. by rewrite decide_False.
    + intros i Hi. destruct (Hbefore' i Hi) as (si & Hsi & Hni).
      pose proof Hsi as [? _]%slot_at_Some.
      rewrite slot_at_insert by lia. case_decide as Hij; [|by exists si].
      subst i. rewrite Hs. eexists. split; [done|]. cbn [Slot.key].
      rewrite Hs in Hsi. injection Hsi as <-.
      unfold insert_stops in *.
      apply orb_false_iff in Hni as [Hn1 Hn2]. rewrite Hn1 in Hstop. cbn in Hstop.
      apply Z.eqb_eq in Hstop. by rewrite <- Hstop, Hn1, Hn2.
Qed.

Lemma well_placed_find h key r w :
  well_placed max_tries illegal_key h ->
  exec (hashtable_find max_tries key) h = Some (r, w) ->
  well_placed max_tries illegal_key (ht w).
Proof.
  intros Hwp. unfold exec. rewrite hashtable_find_eq. cbn zeta.
  destruct (hashfunction h); [|done].
  destruct (probe _ _ _ _); [done| |]; intros [= <- <-]; by apply well_placed_set_stat.
Qed.

Lemma well_placed_run_ops os : forall h h',
  no_remove os ->
  well_placed max_tries illegal_key h ->
  run_ops max_tries illegal_key illegal_data os h = Some h' ->
  well_placed max_tries illegal_key h'.
Proof.
  induction os as [|o os IH]; intros h h' Hno Hwp; cbn; [by intros [= <-]|].
  apply Forall_cons in Hno as [Ho Hno].
  destruct (run_op max_tries illegal_key illegal_data o h) as [h1|] eqn:E1; [|done].
  intros Hrun. eapply IH; [done| |done].
  destruct o as [key data|key data|key]; [| done |]; cbn [run_op] in E1.
  - destruct (exec _ h) as [[rc w]|] eqn:Ei; [|done]. injection E1 as <-.
    by eapply well_placed_insert.
  - destruct (exec _ h) as [[r w]|] eqn:Ef; [|done]. injection E1 as <-.
    by eapply well_placed_find.
Qed.

(** X13. The part of the one-slot-per-key invariant that the code keeps: from a
    table whose slots are all free, any sequence
    of [insert] and [find] leaves every key other than [illegal_key] in at
    most one slot of its probe window.  Only a [remove] can open the hole
    below a taken slot that lets a second copy in. *)
Theorem one_slot_per_key_without_remove os h h' key :
  all_free illegal_key illegal_data (__table h) ->
  no_remove os ->
  run_ops max_tries illegal_key illegal_data os h = Some h' ->
  key <> illegal_key ->
  (holders max_tries h' key <= 1)%nat.
Proof.
  intros Hfree Hno Hrun Hkey.
  apply well_placed_unique; [|done].
  eapply well_placed_run_ops; [done| |done]. by apply well_placed_all_free.
Qed.
End uniqueness.

(** ** Reachable tables, and the round trip on a fresh table *)
Section reachable.
Context {data_type : Type}.
Variables (max_tries illegal_key : Z) (illegal_data : data_type).
Implicit Types (h : hashtable_t data_type) (tbl : list (Slot.t data_type)).

Lemma find_table_ok h key r w :
  table_ok max_tries h ->
  exec (hashtable_find max_tries key) h = Some (r, w) ->
  table_ok max_tries (ht w).
Proof.
  intros Hok. unfold exec. rewrite hashtable_find_eq. cbn zeta.
  destruct (hashfunction h); [|done].
  destruct (probe _ _ _ _); [done| |]; intros [= <- <-]; by apply set_stat_table_ok.
Qed.

Lemma remove_table_ok h key data r w :
  table_ok max_tries h ->
  exec (hashtable_remove max_tries illegal_key illegal_data key data) h = Some (r, w) ->
  table_ok max_tries (ht w).
Proof.
  intros Hok. unfold exec. rewrite hashtable_remove_eq. cbn zeta.
  destruct (hashfunction h); [|done].
  destruct (probe _ _ _ _); [done| |]; intros [= <- <-]; cbn [ht].
  - by apply set_stat_table_ok.
  - apply set_table_table_ok, set_stat_table_ok; [|done].
    destruct h. cbn. apply length_insert.
Qed.

(** Every table reached from a [table_ok] one is [table_ok], so the bounds
    of [probes_stay_in_array] hold all along a run. *)
Lemma run_ops_table_ok os : forall h h',
  table_ok max_tries h ->
  run_ops max_tries illegal_key illegal_data os h = Some h' ->
  table_ok max_tries h'.
Proof.
  induction os as [|o os IH]; intros h h' Hok; cbn; [by intros [= <-]|].
  destruct (run_op max_tries illegal_key illegal_data o h) as [h1|] eqn:E1; [|done].
  apply IH. destruct o as [key data|key data|key]; cbn [run_op] in E1;
    (destruct (exec _ h) as [[r w]|] eqn:E; [|done]); injection E1 as <-.
  - by eapply insert_table_ok.
  - by eapply remove_table_ok.
  - by eapply find_table_ok.
Qed.

(** On a table whose slots are all free an [insert] takes the first slot of
    the probe window. *)
Lemma insert_all_free h key data :
  table_ok max_tries h -> 0 < max_tries -> __size h + max_tries <= 2 ^ 32 ->
  all_free illegal_key illegal_data (__table h) ->
  exists w, exec (hashtable_insert max_tries illegal_key key data) h = Some (1, w).
Proof.
  intros Hok Hm Hno Hfree.
  pose proof Hok as (_ & _ & _ & [f Hf]).
  destruct (probe_window_inside max_tries h key Hok) as [H0 Hin]; [lia|].
  pose proof (probe_count_eq max_tries h key Hok) as Hcnt.
  destruct (slot_at_is_Some (__table h) (probe_index h key)) as [_ [s Hs]]; [lia|].
  pose proof Hs as [_ Hs']%slot_at_Some.
  eapply Forall_lookup_1 in Hfree; [|done]. subst s.
  unfold exec. rewrite hashtable_insert_eq. cbn zeta. rewrite Hf.
  rewrite (probe_Hit_intro _ _ _ _ (probe_index h key)
             (Slot.mk illegal_key illegal_data)); [by eexists|lia|done| |intros; lia].
  unfold insert_stops. cbn. by rewrite Z.eqb_refl.
Qed.

(** X11. The round trip on a table just constructed: [insert(key, data)] returns 1,
    [find(key)] then delivers [data], [remove(key)] delivers [data], and the
    [find(key)] after it returns 0. *)
Lemma round_trip_all_free h key data :
  table_ok max_tries h -> 0 < max_tries -> __size h + max_tries <= 2 ^ 32 ->
  all_free illegal_key illegal_data (__table h) ->
  key <> illegal_key ->
  exists w1 w2 w3 w4,
    exec (hashtable_insert max_tries illegal_key key data) h = Some (1, w1) /\
    exec (hashtable_find max_tries key) (ht w1) = Some ((1, Some data), w2) /\
    exec (hashtable_remove max_tries illegal_key illegal_data key true) (ht w1)
      = Some ((1, Some data), w3) /\
    exec (hashtable_find max_tries key) (ht w3) = Some ((0, None), w4).
Proof.
  intros Hok Hm Hno Hfree Hkey.
  destruct (insert_all_free h key data Hok Hm Hno Hfree) as [w1 H1].
  pose proof (insert_table_ok _ _ _ _ _ _ _ Hok H1) as Hok1.
  pose proof Hok1 as (_ & _ & _ & Hf1).
  assert (holders max_tries (ht w1) key <= 1)%nat as Hone.
  { apply (well_placed_unique max_tries illegal_key); [|done].
    eapply well_placed_insert; [|exact H1].
    by apply (well_placed_all_free max_tries illegal_key illegal_data). }
  apply lookup_after_insert in H1 as Hlook. destruct Hlook as (j & _ & _ & Hp).
  destruct (find_hit max_tries (ht w1) key j _ Hf1 Hp) as (w2 & H2 & _).
  destruct (remove_then_find max_tries illegal_key illegal_data (ht w1) key j _
              Hok1 ltac:(lia) Hkey Hp Hone) as (w3 & w4 & H3 & H4).
  by exists w1, w2, w3, w4.
Qed.
End reachable.

(** ** The mixing function *)
Section hash_facts.

Lemma lnot_u32 key : 0 <= key < 2 ^ 32 -> wrap32 (Z.lnot key) = U32.not key.
Proof.
  intros Hk. unfold wrap32, U32.not, U32.modulus, Z.lnot.
  replace (Z.pred (- key)) with (4294967296 - 1 - key + (-1) * 2 ^ 32) by lia.
  rewrite Z.mod_add by lia. apply Z.mod_small. lia.
Qed.

Lemma shl_u32 key n : 0 <= n -> wrap32 (Z.shiftl key n) = U32.shl key n.
Proof. intros Hn. unfold wrap32, U32.shl, U32.modulus. by rewrite Z.shiftl_mul_pow2. Qed.

Lemma shr_u32 key n : 0 <= n -> Z.shiftr key n = U32.shr key n.
Proof. intros Hn. unfold U32.shr. by rewrite Z.shiftr_div_pow2. Qed.

Lemma u32_add_range a b : 0 <= U32.add a b < 2 ^ 32.
Proof. unfold U32.add, U32.modulus. apply Z.mod_pos_bound. lia. Qed.

Lemma u32_mul_range a b : 0 <= U32.mul a b < 2 ^ 32.
Proof. unfold U32.mul, U32.modulus. apply Z.mod_pos_bound. lia. Qed.

(** Xor with a right shift stays inside 32 bits. *)
Lemma xor_shr_range key n :
  0 <= n -> 0 <= key < 2 ^ 32 -> 0 <= Z.lxor key (Z.shiftr key n) < 2 ^ 32.
Proof.
  intros Hn Hk.
  assert (0 <= Z.shiftr key n) as Hs by (apply Z.shiftr_nonneg; lia).
  split; [apply Z.lxor_nonneg; lia|].
  destruct (decide (Z.lxor key (Z.shiftr key n) = 0)) as [->|Hne]; [lia|].
  apply Z.log2_lt_pow2; [pose proof (proj2 (Z.lxor_nonneg key (Z.shiftr key n))); lia|].
  eapply Z.le_lt_trans; [apply Z.log2_lxor; lia|].
  apply Z.max_lub_lt.
  - destruct (decide (key = 0)) as [->|]; [done|]. apply Z.log2_lt_pow2; lia.
  - destruct (decide (Z.shiftr key n = 0)) as [->|]; [done|].
    apply Z.log2_lt_pow2; [lia|].
    rewrite Z.shiftr_div_pow2 by lia.
    assert (0 < 2 ^ n) by (apply Z.pow_pos_nonneg; lia).
    eapply Z.le_lt_trans; [|apply Hk]. apply Z.div_le_upper_bound; [lia|]. nia.
Qed.

(** C6. On every 32-bit key [hash32shift] is the six-step sequence, each
    step taken in arithmetic modulo [2^32], and the result is a 32-bit
    value. *)
Theorem hash32shift_is_spec key :
  0 <= key < 2 ^ 32 ->
  hash32shift key = hash32shift_spec key /\ 0 <= hash32shift key < 2 ^ 32.
Proof.
  intros Hk. unfold hash32shift, hash32shift_spec, hash32shift_steps.
  cbn [fold_left].
  rewrite lnot_u32, shl_u32 by lia.
  change (wrap32 (U32.not key + U32.shl key 10))
    with (U32.add (U32.not key) (U32.shl key 10)).
  set (k1 := U32.add (U32.not key) (U32.shl key 10)).
  assert (0 <= k1 < 2 ^ 32) as H1 by apply u32_add_range.
  rewrite (shr_u32 k1 7) by lia. fold (U32.xor k1 (U32.shr k1 7)).
  set (k2 := U32.xor k1 (U32.shr k1 7)).
  assert (0 <= k2 < 2 ^ 32) as H2
    by (unfold k2, U32.xor; rewrite <- shr_u32 by lia; apply xor_shr_range; lia).
  rewrite (shl_u32 k2 1) by lia.
  change (wrap32 (k2 + U32.shl k2 1)) with (U32.add k2 (U32.shl k2 1)).
  set (k3 := U32.add k2 (U32.shl k2 1)).
  assert (0 <= k3 < 2 ^ 32) as H3 by apply u32_add_range.
  rewrite (shr_u32 k3 2) by lia. fold (U32.xor k3 (U32.shr k3 2)).
  set (k4 := U32.xor k3 (U32.shr k3 2)).
  change (wrap32 (k4 * 187)) with (U32.mul k4 187).
  set (k5 := U32.mul k4 187).
  assert (0 <= k5 < 2 ^ 32) as H5 by apply u32_mul_range.
  rewrite (shr_u32 k5 11) by lia. fold (U32.xor k5 (U32.shr k5 11)).
  split; [done|].
  unfold U32.xor. rewrite <- shr_u32 by lia. apply xor_shr_range; lia.
Qed.
End hash_facts.

(** A few values, computed with the source definition. *)
Example hash32shift_vectors :
  map hash32shift [0; 1; 2; 256; 4294967295]
    = [2307993600; 434104; 867894; 111095714; 2308411634] /\
  map hash32shift_spec [0; 1; 2; 256; 4294967295]
    = [2307993600; 434104; 867894; 111095714; 2308411634].
Proof. split; vm_compute; reflexivity. Qed.

(** [hash_none] sends every multiple of 256 to slot 0 of a table with
    [bits = 8]. *)
Example hash_none_collides :
  map (probe_index hashtable_test.hashtable_fresh) [256; 512; 768; 1024; 1280]
  = [0; 0; 0; 0; 0].
Proof. reflexivity. Qed.


(** ** The table of hashtable_test.cpp *)
Section test_facts.
Import hashtable_test.

Lemma test_init_result hashtable_alloc w :
  alloc_exact 8 hashtable_alloc ->
  exec (hashtable_uint32_init hashtable_alloc) hashtable = Some (1, w) ->
  ht w = hashtable_fresh.
Proof.
  intros Halloc Hrun. unfold hashtable_uint32_init in Hrun.
  apply hashtable_init_inv in Hrun as [_ Hinv]. cbn zeta in Hinv.
  change (wrap64 (8 * wrap64 (Z.shiftl 1 (bits hashtable) + 4))) with 2080 in Hinv.
  change (wrap64 (Z.shiftl 1 (bits hashtable) + 4)) with 260 in Hinv.
  destruct (hashtable_alloc 2080) as [p|] eqn:Ep; [|by destruct Hinv].
  apply Halloc in Ep. change (2080 / 8) with 260 in Ep.
  destruct Hinv as (_ & Hn & Hb & Hst & Hf & Hsz & Hms & Hlen & _ & Hfree).
  assert (__table (ht w) = replicate 260 (Slot.mk 0 0)) as Htbl.
  { apply list_eq. intros i. destruct (decide (i < 260)%nat) as [Hi|Hi].
    - rewrite lookup_replicate_2 by done.
      specialize (Hfree (Z.of_nat i) ltac:(lia)).
      apply slot_at_Some in Hfree as [_ Hfree]. by rewrite Nat2Z.id in Hfree.
    - rewrite !(proj2 (lookup_ge_None _ _)); [done| |].
      + rewrite length_replicate. lia.
      + lia. }
  destruct (ht w) as [nm b hf sz ms st tbl]. cbn in *. by subst.
Qed.

(** C3. With [bits = 8], [max_tries = 4], [hash_none] and [illegal_key = 0],
    inserting 256, 512, 768 and 1024 into the table just constructed
    returns 1 each time and fills slots 0, 1, 2 and 3 in that order; the
    insert of 1280 that follows returns 0 and adds one to [insert_err]. *)
Theorem collision_chain hashtable_alloc w0 (v1 v2 v3 v4 v5 : Z) :
  alloc_exact 8 hashtable_alloc ->
  exec (hashtable_uint32_init hashtable_alloc) hashtable = Some (1, w0) ->
  exists w1 w2 w3 w4 w5,
    exec (hashtable_uint32_insert 256 v1) (ht w0) = Some (1, w1) /\
    __table (ht w1) = [Slot.mk 256 v1] ++ replicate 259 (Slot.mk 0 0) /\
    exec (hashtable_uint32_insert 512 v2) (ht w1) = Some (1, w2) /\
    __table (ht w2) = [Slot.mk 256 v1; Slot.mk 512 v2] ++ replicate 258 (Slot.mk 0 0) /\
    exec (hashtable_uint32_insert 768 v3) (ht w2) = Some (1, w3) /\
    __table (ht w3) =
      [Slot.mk 256 v1; Slot.mk 512 v2; Slot.mk 768 v3] ++ replicate 257 (Slot.mk 0 0) /\
    exec (hashtable_uint32_insert 1024 v4) (ht w3) = Some (1, w4) /\
    __table (ht w4) =
      [Slot.mk 256 v1; Slot.mk 512 v2; Slot.mk 768 v3; Slot.mk 1024 v4]
        ++ replicate 256 (Slot.mk 0 0) /\
    exec (hashtable_uint32_insert 1280 v5) (ht w4) = Some (0, w5) /\
    __table (ht w5) = __table (ht w4) /\
    Stat.insert_err (__stat (ht w4)) = 0 /\
    Stat.insert_err (__stat (ht w5)) = 1.
Proof.
  intros Halloc Hrun. rewrite (test_init_result _ _ Halloc Hrun).
  eexists _, _, _, _, _.
  split; [vm_compute; reflexivity|]. cbn [ht].
  split; [vm_compute; reflexivity|].
  split; [vm_compute; reflexivity|]. cbn [ht].
  split; [vm_compute; reflexivity|].
  split; [vm_compute; reflexivity|]. cbn [ht].
  split; [vm_compute; reflexivity|].
  split; [vm_compute; reflexivity|]. cbn [ht].
  split; [vm_compute; reflexivity|].
  split; [vm_compute; reflexivity|]. cbn [ht].
  repeat split; vm_compute; reflexivity.
Qed.
End test_facts.

(** ** Concrete runs on the table of hashtable_test.cpp *)
Section test_runs.
Import hashtable_test.

Lemma alloc_junk_exact junk : alloc_exact 8 (alloc_junk junk).
Proof.
  intros size p. unfold alloc_junk. destruct (Z.leb_spec 0 size); [|done].
  intros [= <-]. rewrite length_replicate, Z2Nat.id; [done|].
  apply Z.div_pos; lia.
Qed.

Lemma hashtable_fresh_ok : table_ok 4 hashtable_fresh.
Proof. repeat split; cbn; try lia. by eexists. Qed.

Lemma hashtable_full_ok : table_ok 4 hashtable_full.
Proof. repeat split; cbn; try lia. by eexists. Qed.

(** [hashtable_full] is what the four inserts make of the fresh table. *)
Lemma hashtable_full_reached :
  run_ops 4 0 0 [Insert 256 256; Insert 512 512; Insert 768 768; Insert 1024 1024]
          hashtable_fresh = Some hashtable_full.
Proof. vm_compute. reflexivity. Qed.

(** C1 fails on the code.  Insert 256 and 512 (both hash to slot 0), remove
    256, insert 512 again: the second insert of 512 takes the freed slot 0
    although slot 1 still holds 512.  Two slots of the probe window of 512
    now hold 512; [remove(512)] clears slot 0 only, and the [find(512)]
    that follows still returns 1, with the payload of the first insert. *)
Theorem reinsert_below_hole_duplicates :
  exists h w2 w3,
    run_ops 4 0 0 [Insert 256 1; Insert 512 2; Remove 256 true; Insert 512 3]
            hashtable_fresh = Some h /\
    take 2 (__table h) = [Slot.mk 512 3; Slot.mk 512 2] /\
    holders 4 h 512 = 2%nat /\
    exec (hashtable_uint32_remove 512 true) h = Some ((1, Some 3), w2) /\
    exec (hashtable_uint32_find 512) (ht w2) = Some ((1, Some 2), w3).
Proof.
  eexists _, _, _.
  split; [vm_compute; reflexivity|].
  split; [vm_compute; reflexivity|].
  split; [vm_compute; reflexivity|].
  split; [vm_compute; reflexivity|].
  vm_compute; reflexivity.
Qed.

(** C2 as stated fails: on the full chain [insert(1280)] returns 0, and the
    [insert] counter goes from 4 to 5 (and [collision] from 6 to 10). *)
Lemma insert_counter_counterexample :
  exists w,
    exec (hashtable_uint32_insert 1280 1280) hashtable_full = Some (0, w) /\
    Stat.insert (__stat hashtable_full) = 4 /\
    Stat.insert (__stat (ht w)) = 5 /\
    Stat.collision (__stat hashtable_full) = 6 /\
    Stat.collision (__stat (ht w)) = 10 /\
    Stat.insert_err (__stat (ht w)) = 1.
Proof.
  eexists. split; [vm_compute; reflexivity|].
  repeat split; vm_compute; reflexivity.
Qed.

Lemma insert_counters_witness :
  exists w,
    exec (hashtable_uint32_insert 1280 1280) hashtable_full = Some (0, w) /\
    Stat.insert (__stat (ht w)) = wrap64 (Stat.insert (__stat hashtable_full) + 1) /\
    Stat.insert_err (__stat (ht w))
      = wrap64 (Stat.insert_err (__stat hashtable_full) + 1).
Proof.
  eexists. split; [vm_compute; reflexivity|].
  match goal with |- context [ht ?w] =>
    destruct (insert_counters 4 0 hashtable_full 1280 1280 0 w) as (_ & Hi & He & _);
      [vm_compute; reflexivity|]
  end.
  split; [exact Hi|exact He].
Defined.

Lemma collision_chain_witness :
  alloc_exact 8 (alloc_junk (Slot.mk 7 9)) /\
  exists w0 w1 w2 w3 w4 w5,
    exec (hashtable_uint32_init (alloc_junk (Slot.mk 7 9))) hashtable = Some (1, w0) /\
    exec (hashtable_uint32_insert 256 256) (ht w0) = Some (1, w1) /\
    exec (hashtable_uint32_insert 512 512) (ht w1) = Some (1, w2) /\
    exec (hashtable_uint32_insert 768 768) (ht w2) = Some (1, w3) /\
    exec (hashtable_uint32_insert 1024 1024) (ht w3) = Some (1, w4) /\
    exec (hashtable_uint32_insert 1280 1280) (ht w4) = Some (0, w5) /\
    Stat.insert_err (__stat (ht w5)) = 1.
Proof.
  split; [apply alloc_junk_exact|].
  assert (exists w0,
    exec (hashtable_uint32_init (alloc_junk (Slot.mk 7 9))) hashtable = Some (1, w0))
    as [w0 H0] by (eexists; vm_compute; reflexivity).
  destruct (collision_chain (alloc_junk (Slot.mk 7 9)) w0 256 512 768 1024 1280
              (alloc_junk_exact _) H0)
    as (w1 & w2 & w3 & w4 & w5 & H1 & _ & H2 & _ & H3 & _ & H4 & _ & H5 & _ & _ & He).
  exists w0, w1, w2, w3, w4, w5. repeat split; assumption.
Defined.

(** C4 as stated fails: on the full chain [insert(1280)] returns 0 and the
    [remove(1280)] that follows returns 0 as well, delivering nothing. *)
Lemma remove_after_insert_counterexample :
  exists w1 w2,
    exec (hashtable_uint32_insert 1280 1280) hashtable_full = Some (0, w1) /\
    exec (hashtable_uint32_remove 1280 true) (ht w1) = Some ((0, None), w2).
Proof.
  eexists _, _. split; [vm_compute; reflexivity|]. vm_compute; reflexivity.
Qed.

Lemma remove_after_insert_witness :
  table_ok 4 hashtable_fresh /\ 0 <= 4 /\ 256 <> 0 /\
  exists w1 w2 w3,
    exec (hashtable_uint32_insert 256 7) hashtable_fresh = Some (1, w1) /\
    (holders 4 (ht w1) 256 <= 1)%nat /\
    exec (hashtable_uint32_remove 256 true) (ht w1) = Some ((1, Some 7), w2) /\
    exec (hashtable_uint32_find 256) (ht w2) = Some ((0, None), w3).
Proof.
  split; [apply hashtable_fresh_ok|]. split; [lia|]. split; [lia|].
  assert (exists w1,
    exec (hashtable_uint32_insert 256 7) hashtable_fresh = Some (1, w1) /\
    (holders 4 (ht w1) 256 <= 1)%nat)
    as (w1 & H1 & Hone) by (eexists; split; [vm_compute; reflexivity|vm_compute; lia]).
  destruct (remove_after_insert 4 0 0 hashtable_fresh 256 7 w1 hashtable_fresh_ok)
    as (w2 & w3 & Hr & Hf); [lia|lia|exact H1|exact Hone|].
  exists w1, w2, w3. repeat split; assumption.
Defined.

(** C5 as stated fails: on the full chain [insert(1280)] returns 0 and the
    [find(1280)] that follows returns 0. *)
Lemma find_after_insert_counterexample :
  exists w w',
    exec (hashtable_uint32_insert 1280 1280) hashtable_full = Some (0, w) /\
    exec (hashtable_uint32_find 1280) (ht w) = Some ((0, None), w').
Proof.
  eexists _, _. split; [vm_compute; reflexivity|]. vm_compute; reflexivity.
Qed.

Lemma find_after_insert_witness :
  exists w w',
    exec (hashtable_uint32_insert 768 99) hashtable_full = Some (1, w) /\
    exec (hashtable_uint32_find 768) (ht w) = Some ((1, Some 99), w').
Proof.
  assert (exists w,
    exec (hashtable_uint32_insert 768 99) hashtable_full = Some (1, w))
    as [w H1] by (eexists; vm_compute; reflexivity).
  destruct (find_after_insert 4 0 hashtable_full 768 99 w H1) as (w' & Hf).
  exists w, w'. split; assumption.
Defined.

Lemma hash32shift_is_spec_witness :
  0 <= 12345 < 2 ^ 32 /\
  hash32shift 12345 = hash32shift_spec 12345 /\ 0 <= hash32shift 12345 < 2 ^ 32.
Proof. split; [lia|]. apply (hash32shift_is_spec 12345). lia. Defined.

Lemma failed_operation_keeps_slots_witness :
  exists w w',
    exec (hashtable_uint32_insert 1280 1280) hashtable_full = Some (0, w) /\
    __table (ht w) = __table hashtable_full /\
    exec (hashtable_uint32_remove 1280 true) hashtable_full = Some ((0, None), w') /\
    __table (ht w') = __table hashtable_full.
Proof.
  assert (exists w,
    exec (hashtable_uint32_insert 1280 1280) hashtable_full = Some (0, w))
    as [w Hi] by (eexists; vm_compute; reflexivity).
  assert (exists w',
    exec (hashtable_uint32_remove 1280 true) hashtable_full = Some ((0, None), w'))
    as [w' Hr] by (eexists; vm_compute; reflexivity).
  exists w, w'.
  split; [exact Hi|].
  split; [exact (proj1 (failed_operation_keeps_slots 4 0 0 hashtable_full 1280) 1280 w Hi)|].
  split; [exact Hr|].
  exact (proj2 (failed_operation_keeps_slots 4 0 0 hashtable_full 1280) true None w' Hr).
Defined.

Lemma probes_stay_in_array_witness :
  table_ok 4 hashtable_full /\ 0 <= 4 /\
  probe_index hashtable_full 1280 = 0 /\
  (exists rc w,
     exec (hashtable_uint32_insert 1280 5) hashtable_full = Some (rc, w) /\
     window_accesses 4 hashtable_full 1280 (touched w)) /\
  (exists rc w,
     exec (hashtable_uint32_find 1280) hashtable_full = Some (rc, w) /\
     window_accesses 4 hashtable_full 1280 (touched w)) /\
  (exists rc w,
     exec (hashtable_uint32_remove 1280 true) hashtable_full = Some (rc, w) /\
     window_accesses 4 hashtable_full 1280 (touched w)).
Proof.
  split; [apply hashtable_full_ok|]. split; [lia|]. split; [reflexivity|].
  apply (probes_stay_in_array 4 0 0 hashtable_full 1280 5 true hashtable_full_ok).
  lia.
Defined.

Lemma init_success_all_free_witness :
  0 < 8 /\ 0 <= 4 < 2 ^ 31 /\ alloc_exact 8 (alloc_junk (Slot.mk 7 9)) /\
  exists w,
    exec (hashtable_uint32_init (alloc_junk (Slot.mk 7 9))) hashtable = Some (1, w) /\
    Z.of_nat (length (__table (ht w))) = Z.shiftl 1 (bits hashtable) + 4 /\
    all_free 0 0 (__table (ht w)).
Proof.
  split; [lia|]. split; [lia|]. split; [apply alloc_junk_exact|].
  eexists. split; [vm_compute; reflexivity|].
  apply (init_success_all_free 4 0 0 8 (alloc_junk (Slot.mk 7 9)) hashtable);
    [lia|lia|apply alloc_junk_exact|vm_compute; reflexivity].
Defined.

Lemma insert_illegal_key_witness :
  let h := mk_hashtable "hash" 8 (Some hash_none) 256 2080 (Stat.mk 1 0 0 0 0 0 0 0 0)
                        ([Slot.mk 256 256] ++ replicate 259 (Slot.mk 0 0)) in
  run_ops 4 0 0 [Insert 256 256] hashtable_fresh = Some h /\
  exists w w',
    exec (hashtable_uint32_insert 0 77) h = Some (1, w) /\
    __table (ht w) = <[1%nat := Slot.mk 0 77]> (__table h) /\
    slot_at (__table (ht w)) 1 = Some (Slot.mk 0 77) /\
    exec (hashtable_uint32_find 0) (ht w) = Some ((1, Some 77), w').
Proof.
  intros h. split; [vm_compute; reflexivity|].
  apply (insert_illegal_key 4 0 h 77 1 (Slot.mk 0 0)).
  - by eexists.
  - change (probe_index h 0) with 0. change (probe_count 4 h 0) with 4%nat. lia.
  - reflexivity.
  - reflexivity.
  - intros i Hi. change (probe_index h 0) with 0 in Hi. assert (i = 0) as -> by lia.
    eexists. split; [reflexivity|]. cbn. lia.
Defined.
End test_runs.

(** ** More on [find], [remove] and [insert] *)
Section more_op_facts.
Context {data_type : Type}.
Variables (max_tries illegal_key : Z) (illegal_data : data_type).
Implicit Types (h : hashtable_t data_type) (tbl : list (Slot.t data_type)).

Lemma find_inv h key rc out w :
  exec (hashtable_find max_tries key) h = Some ((rc, out), w) ->
  (rc = 0 /\ out = None /\
   probe (lookup_stops key) (__table h) (probe_count max_tries h key) (probe_index h key)
     = Miss /\
   ht w = set_stat (Stat.incr_search_err (Stat.incr_search (__stat h))) h) \/
  (rc = 1 /\ exists j s,
     out = Some (Slot.data s) /\
     probe (lookup_stops key) (__table h) (probe_count max_tries h key) (probe_index h key)
       = Hit j s /\
     ht w = set_stat (Stat.incr_search_ok (Stat.incr_search (__stat h))) h).
Proof.
  unfold exec. rewrite hashtable_find_eq. cbn zeta.
  destruct (hashfunction h); [|done].
  destruct (probe _ _ _ _) as [| |j s]; [done| |]; intros [= <- <- <-].
  - by left.
  - right. split; [done|]. by exists j, s.
Qed.

Lemma remove_inv h key data rc out w :
  exec (hashtable_remove max_tries illegal_key illegal_data key data) h
    = Some ((rc, out), w) ->
  (rc = 0 /\ out = None /\
   probe (lookup_stops key) (__table h) (probe_count max_tries h key) (probe_index h key)
     = Miss /\
   ht w = set_stat (Stat.incr_remove_err (Stat.incr_remove (__stat h))) h) \/
  (rc = 1 /\ exists j s,
     out = (if data then Some (Slot.data s) else None) /\
     probe (lookup_stops key) (__table h) (probe_count max_tries h key) (probe_index h key)
       = Hit j s /\
     ht w = set_table (<[Z.to_nat j := Slot.mk illegal_key illegal_data]> (__table h))
              (set_stat (Stat.incr_remove (__stat h)) h)).
Proof.
  unfold exec. rewrite hashtable_remove_eq. cbn zeta.
  destruct (hashfunction h); [|done].
  destruct (probe _ _ _ _) as [| |j s]; [done| |]; intros [= <- <- <-].
  - by left.
  - right. split; [done|]. by exists j, s.
Qed.

(** X6. [find] is read-only: the slot array and every field of the descriptor
    but the three search counters are as before the call. *)
Theorem find_is_read_only h key r w :
  exec (hashtable_find max_tries key) h = Some (r, w) ->
  __table (ht w) = __table h /\
  name (ht w) = name h /\ bits (ht w) = bits h /\ hashfunction (ht w) = hashfunction h /\
  __size (ht w) = __size h /\ __memory_size (ht w) = __memory_size h /\
  Stat.insert (__stat (ht w)) = Stat.insert (__stat h) /\
  Stat.remove (__stat (ht w)) = Stat.remove (__stat h) /\
  Stat.collision (__stat (ht w)) = Stat.collision (__stat h) /\
  Stat.overwritten (__stat (ht w)) = Stat.overwritten (__stat h) /\
  Stat.insert_err (__stat (ht w)) = Stat.insert_err (__stat h) /\
  Stat.remove_err (__stat (ht w)) = Stat.remove_err (__stat h).
Proof.
  destruct r as [rc out]. intros [(_ & _ & _ & ->)|(_ & j & s & _ & _ & ->)]%find_inv;
    by destruct h.
Qed.

(** X7. Every call of [find] adds one to [search]; it adds one to [search_ok]
    and delivers a payload when it returns 1, and adds one to [search_err]
    and delivers nothing when it returns 0.  It returns nothing else. *)
Theorem find_counters h key rc out w :
  exec (hashtable_find max_tries key) h = Some ((rc, out), w) ->
  let st := __stat h in
  let st' := __stat (ht w) in
  Stat.search st' = wrap64 (Stat.search st + 1) /\
  ((rc = 1 /\ is_Some out /\
    Stat.search_ok st' = wrap64 (Stat.search_ok st + 1) /\
    Stat.search_err st' = Stat.search_err st) \/
   (rc = 0 /\ out = None /\
    Stat.search_ok st' = Stat.search_ok st /\
    Stat.search_err st' = wrap64 (Stat.search_err st + 1))).
Proof.
  intros [(-> & -> & _ & ->)|(-> & j & s & -> & _ & ->)]%find_inv; cbn zeta;
    destruct h as [? ? ? ? ? st ?]; cbn; (split; [done|]); [right|left]; by eauto.
Qed.

(** X5. What [find] answers: 1 with the payload of the first slot of the probe
    window that holds [key], or 0 when no slot of the window holds it. *)
Theorem find_result h key rc out w :
  exec (hashtable_find max_tries key) h = Some ((rc, out), w) ->
  (rc = 1 /\ exists j s, first_in_window max_tries (lookup_stops key) h key j s /\
                         Slot.key s = key /\ out = Some (Slot.data s)) \/
  (rc = 0 /\ out = None /\ none_in_window max_tries (lookup_stops key) h key).
Proof.
  intros [(-> & -> & Hp & _)|(-> & j & s & -> & Hp & _)]%find_inv.
  - right. split_and!; try done. intros i Hi. by eapply probe_Miss_inv.
  - left. split; [done|]. exists j, s.
    pose proof (probe_Hit_inv _ _ _ _ _ _ Hp) as (Hr & Hs & Hk & Hbefore).
    unfold first_in_window. split_and!; try done; try lia. by apply Z.eqb_eq.
Qed.

(** X9. Every call of [remove] adds one to [remove]; [remove_err] gets one more
    exactly when the call returns 0.  No other counter moves. *)
Theorem remove_counters h key data rc out w :
  exec (hashtable_remove max_tries illegal_key illegal_data key data) h
    = Some ((rc, out), w) ->
  let st := __stat h in
  let st' := __stat (ht w) in
  (rc = 0 \/ rc = 1) /\
  Stat.remove st' = wrap64 (Stat.remove st + 1) /\
  Stat.remove_err st' =
    (if rc =? 0 then wrap64 (Stat.remove_err st + 1) else Stat.remove_err st) /\
  Stat.insert st' = Stat.insert st /\ Stat.insert_err st' = Stat.insert_err st /\
  Stat.collision st' = Stat.collision st /\ Stat.overwritten st' = Stat.overwritten st /\
  Stat.search st' = Stat.search st /\ Stat.search_ok st' = Stat.search_ok st /\
  Stat.search_err st' = Stat.search_err st.
Proof.
  intros [(-> & _ & _ & ->)|(-> & j & s & _ & _ & ->)]%remove_inv; cbn zeta;
    destruct h as [? ? ? ? ? st ?]; cbn; repeat split; auto.
Qed.

(** X8. A successful [remove] frees one slot and no more: the first slot of the
    probe window that holds [key] becomes [(illegal_key, illegal_data)],
    every other slot keeps its content.  The payload of that slot is
    delivered when the caller passed a [data] pointer. *)
Theorem remove_frees_first_holder h key data out w :
  exec (hashtable_remove max_tries illegal_key illegal_data key data) h
    = Some ((1, out), w) ->
  exists j s,
    first_in_window max_tries (lookup_stops key) h key j s /\ Slot.key s = key /\
    out = (if data then Some (Slot.data s) else None) /\
    slot_at (__table (ht w)) j = Some (Slot.mk illegal_key illegal_data) /\
    length (__table (ht w)) = length (__table h) /\
    forall i, i <> j -> 0 <= i -> slot_at (__table (ht w)) i = slot_at (__table h) i.
Proof.
  intros [(? & _)|(_ & j & s & -> & Hp & ->)]%remove_inv; [done|].
  pose proof (probe_Hit_inv _ _ _ _ _ _ Hp) as (Hr & Hs & Hk & Hbefore).
  pose proof Hs as [Hj _]%slot_at_Some.
  exists j, s. rewrite table_set. unfold first_in_window. split_and!; try done; try lia.
  - by apply Z.eqb_eq.
  - by eapply slot_at_insert_eq.
  - apply length_insert.
  - intros i Hij Hi. rewrite slot_at_insert by lia. by rewrite decide_False.
Qed.

(** X2. A successful [insert] writes one slot and no more: the first slot of the
    probe window that is free or holds [key] becomes [(key, data)], every
    other slot keeps its content.  [overwritten] gets one more exactly when
    that slot was not free. *)
Theorem insert_writes_first_fit h key data w :
  exec (hashtable_insert max_tries illegal_key key data) h = Some (1, w) ->
  exists j s,
    first_in_window max_tries (insert_stops illegal_key key) h key j s /\
    slot_at (__table (ht w)) j = Some (Slot.mk key data) /\
    length (__table (ht w)) = length (__table h) /\
    (forall i, i <> j -> 0 <= i -> slot_at (__table (ht w)) i = slot_at (__table h) i) /\
    Stat.overwritten (__stat (ht w)) =
      (if Slot.key s =? illegal_key then Stat.overwritten (__stat h)
       else wrap64 (Stat.overwritten (__stat h) + 1)).
Proof.
  intros (_ & j & s & Hp & ->)%insert_succeeds_inv; [|done].
  pose proof (probe_Hit_inv _ _ _ _ _ _ Hp) as (Hr & Hs & Hk & Hbefore).
  pose proof Hs as [Hj _]%slot_at_Some.
  exists j, s. rewrite table_set. unfold first_in_window. split_and!; try done; try lia.
  - by eapply slot_at_insert_eq.
  - apply length_insert.
  - intros i Hij Hi. rewrite slot_at_insert by lia. by rewrite decide_False.
  - rewrite iter_incr_collision. destruct h as [? ? ? ? ? st ?]. cbn.
    by destruct (Slot.key s =? illegal_key).
Qed.

(** X3. [insert] returns 0 exactly when every slot of the probe window holds a
    key that is neither [illegal_key] nor [key]. *)
Theorem insert_fails_iff_window_taken h key data rc w :
  exec (hashtable_insert max_tries illegal_key key data) h = Some (rc, w) ->
  (rc = 0 \/ rc = 1) /\
  (rc = 0 <-> none_in_window max_tries (insert_stops illegal_key key) h key).
Proof.
  intros Hrun. destruct (decide (rc = 0)) as [->|Hrc].
  - split; [by left|]. split; [|done]. intros _.
    apply insert_fails_inv in Hrun as [Hp _]. intros i Hi. by eapply probe_Miss_inv.
  - pose proof Hrun as (-> & j & s & Hp & _)%insert_succeeds_inv; [|done].
    split; [by right|]. split; [done|]. intros Hnone.
    apply probe_Miss_intro in Hnone. congruence.
Qed.

(** Changing a slot from one key on which the walk does not stop to another
    such key does not change where the walk ends. *)
Lemma probe_insert_irrelevant p tbl j s s' n : forall i,
  slot_at tbl j = Some s -> p (Slot.key s) = false -> p (Slot.key s') = false ->
  0 <= i ->
  probe p (<[Z.to_nat j := s']> tbl) n i = probe p tbl n i.
Proof.
  intros i Hs Hp Hp'. pose proof Hs as [Hj _]%slot_at_Some. revert i.
  induction n as [|n IH]; intros i Hi; [done|]. cbn [probe].
  rewrite slot_at_insert by lia. case_decide as Hij.
  - subst i. rewrite Hs, Hp, Hp'. apply IH. lia.
  - destruct (slot_at tbl i) as [si|]; [|done].
    destruct (p (Slot.key si)); [done|]. apply IH. lia.
Qed.

Lemma table_lookup_set_stat h st key :
  table_lookup max_tries (set_stat st h) key = table_lookup max_tries h key.
Proof. by destruct h. Qed.


(** An [insert] of [key] leaves the lookups of every other key but
    [illegal_key] as they were, whether it succeeds or not. *)
Lemma insert_other_lookup h key data rc w k :
  k <> key -> k <> illegal_key ->
  exec (hashtable_insert max_tries illegal_key key data) h = Some (rc, w) ->
  table_lookup max_tries (ht w) k = table_lookup max_tries h k.
Proof.
  intros Hk Hki Hrun. destruct (decide (rc = 0)) as [->|Hrc].
  { apply insert_fails_inv in Hrun as [_ ->]. apply table_lookup_set_stat. }
  apply insert_succeeds_inv in Hrun as (_ & j & s & Hp & ->); [|done].
  apply probe_Hit_inv in Hp as (_ & Hs & Hstop & _).
  unfold table_lookup. rewrite probe_index_set, probe_count_set, table_set.
  rewrite (probe_insert_irrelevant _ _ _ s); try done.
  - unfold insert_stops in Hstop. unfold lookup_stops.
    apply orb_true_iff in Hstop as [?%Z.eqb_eq|?%Z.eqb_eq]; apply Z.eqb_neq; congruence.
  - unfold lookup_stops. cbn. apply Z.eqb_neq. congruence.
  - apply probe_index_nonneg.
Qed.


(** X17. Without [remove] the table is a finite map, from any state on: when [h]
    holds the map [m], an [insert(key, data)] that returns 1 leaves a table
    that holds [<[key:=data]> m], and one that returns 0 leaves [m]. *)
Theorem insert_refines_map h (m : gmap Z data_type) key data rc w :
  represents max_tries illegal_key h m -> key <> illegal_key ->
  exec (hashtable_insert max_tries illegal_key key data) h = Some (rc, w) ->
  represents max_tries illegal_key (ht w) (if rc =? 1 then <[key:=data]> m else m).
Proof.
  intros Hrep Hkey Hrun k Hk.
  destruct (decide (k = key)) as [->|Hne].
  - destruct (decide (rc = 0)) as [->|Hrc].
    + cbn. apply insert_fails_inv in Hrun as [_ ->].
      rewrite table_lookup_set_stat. by apply Hrep.
    + pose proof Hrun as (-> & _)%insert_succeeds_inv; [|done]. cbn.
      apply lookup_after_insert in Hrun as (j & _ & _ & Hp).
      unfold table_lookup. by rewrite Hp, lookup_insert_eq.
  - rewrite (insert_other_lookup _ _ _ _ _ _ Hne Hk Hrun), (Hrep _ Hk).
    destruct (rc =? 1); [by rewrite lookup_insert_ne|done].
Qed.


(** Once the only slot of the window that holds [key] is freed, the walk for
    [key] finds nothing. *)
Lemma probe_after_remove h key j s :
  table_ok max_tries h -> 0 <= max_tries -> key <> illegal_key ->
  probe (lookup_stops key) (__table h)
        (probe_count max_tries h key) (probe_index h key) = Hit j s ->
  (holders max_tries h key <= 1)%nat ->
  probe (lookup_stops key) (<[Z.to_nat j := Slot.mk illegal_key illegal_data]> (__table h))
        (probe_count max_tries h key) (probe_index h key) = Miss.
Proof.
  intros Hok Hm Hkey Hp Hone.
  destruct (probe_window_inside max_tries h key Hok Hm) as [H0 Hin].
  pose proof (probe_Hit_inv _ _ _ _ _ _ Hp) as (Hr & Hsj & Hkj & _).
  apply Z.eqb_eq in Hkj.
  apply probe_Miss_intro. intros i Hi. rewrite slot_at_insert by lia.
  case_decide as Hij.
  - subst i. rewrite Hsj. eexists. split; [done|].
    unfold lookup_stops. cbn. by apply Z.eqb_neq.
  - destruct (slot_at_is_Some (__table h) i) as [_ [s' Hs']]; [lia|].
    exists s'. split; [done|]. unfold lookup_stops. apply Z.eqb_neq. intros Hk'.
    apply Hij. by eapply (holders_unique max_tries h key i j s' s Hone H0).
Qed.


(** X16. A table whose slots are all free holds the empty map. *)
Theorem all_free_represents_empty h :
  table_ok max_tries h -> 0 <= max_tries ->
  all_free illegal_key illegal_data (__table h) ->
  represents max_tries illegal_key h ∅.
Proof.
  intros Hok Hm Hfree k Hk. rewrite lookup_empty. unfold table_lookup.
  destruct (probe_window_inside max_tries h k Hok Hm) as [H0 Hin].
  rewrite probe_Miss_intro; [done|]. intros i Hi.
  destruct (slot_at_is_Some (__table h) i) as [_ [s Hs]]; [lia|].
  exists s. split; [done|]. pose proof Hs as [_ Hs']%slot_at_Some.
  eapply Forall_lookup_1 in Hfree; [|done]. subst s.
  unfold lookup_stops. cbn. apply Z.eqb_neq. congruence.
Qed.

(** After a successful [insert] of [key] a further [insert] of [key] stops
    on the slot just written. *)
Lemma insert_stops_after_insert h key data w :
  exec (hashtable_insert max_tries illegal_key key data) h = Some (1, w) ->
  exists j,
    __table (ht w) = <[Z.to_nat j := Slot.mk key data]> (__table h) /\
    probe (insert_stops illegal_key key) (__table (ht w))
          (probe_count max_tries (ht w) key) (probe_index (ht w) key)
      = Hit j (Slot.mk key data).
Proof.
  intros (_ & j & s & Hp & ->)%insert_succeeds_inv; [|done].
  apply probe_Hit_inv in Hp as (Hr & Hs & Hstop & Hbefore).
  pose proof Hs as [Hj _]%slot_at_Some.
  exists j. rewrite probe_index_set, probe_count_set, table_set. split; [done|].
  apply probe_Hit_intro; [done|by eapply slot_at_insert_eq| |].
  - unfold insert_stops. cbn. rewrite Z.eqb_refl. apply orb_true_r.
  - intros i Hi. destruct (Hbefore i Hi) as (si & Hsi & Hni).
    exists si. pose proof Hsi as [? _]%slot_at_Some.
    rewrite slot_at_insert by lia. by rewrite decide_False by lia.
Qed.

(** X4. A second [insert] of a key just inserted goes to the same slot: it
    returns 1, replaces the payload, leaves every key of the array where it
    was and adds one to [overwritten]. *)
Theorem insert_overwrites h key d1 d2 w1 :
  key <> illegal_key ->
  exec (hashtable_insert max_tries illegal_key key d1) h = Some (1, w1) ->
  exists j w2,
    slot_at (__table (ht w1)) j = Some (Slot.mk key d1) /\
    exec (hashtable_insert max_tries illegal_key key d2) (ht w1) = Some (1, w2) /\
    __table (ht w2) = <[Z.to_nat j := Slot.mk key d2]> (__table (ht w1)) /\
    Slot.key <$> __table (ht w2) = Slot.key <$> __table (ht w1) /\
    Stat.overwritten (__stat (ht w2)) = wrap64 (Stat.overwritten (__stat (ht w1)) + 1).
Proof.
  intros Hkey Hrun.
  pose proof (insert_Some_hashfunction _ _ _ _ _ _ Hrun) as Hf.
  pose proof Hrun as (_ & j0 & s0 & _ & Hw1)%insert_succeeds_inv; [|done].
  assert (is_Some (hashfunction (ht w1))) as [f Hf1]
    by (by rewrite Hw1, hashfunction_set).
  clear Hw1 j0 s0.
  apply insert_stops_after_insert in Hrun as (j & _ & Hp).
  pose proof (probe_Hit_inv _ _ _ _ _ _ Hp) as (_ & Hs & _ & _).
  pose proof Hs as [_ Hs']%slot_at_Some.
  exists j. eexists. split; [done|].
  unfold exec. rewrite hashtable_insert_eq. cbn zeta. rewrite Hf1, Hp.
  split; [done|]. cbn [ht Slot.key]. rewrite table_set.
  split_and!; [done| |].
  - rewrite list_fmap_insert. cbn. apply list_insert_id.
    by rewrite list_lookup_fmap, Hs'.
  - apply Z.eqb_neq in Hkey. rewrite Hkey, iter_incr_collision.
    by destruct (ht w1) as [? ? ? ? ? [] ?].
Qed.

(** X12. On a table whose slots are all free [illegal_key] is found all the
    same: [find(illegal_key)] returns 1 and delivers [illegal_data], and
    [remove(illegal_key)] returns 1 and leaves the slot array as it was. *)
Theorem illegal_key_found_on_free_table h :
  table_ok max_tries h -> 0 < max_tries -> __size h + max_tries <= 2 ^ 32 ->
  all_free illegal_key illegal_data (__table h) ->
  exists w w',
    exec (hashtable_find max_tries illegal_key) h = Some ((1, Some illegal_data), w) /\
    exec (hashtable_remove max_tries illegal_key illegal_data illegal_key true) h
      = Some ((1, Some illegal_data), w') /\
    __table (ht w') = __table h /\
    Stat.remove_err (__stat (ht w')) = Stat.remove_err (__stat h).
Proof.
  intros Hok Hm Hno Hfree.
  pose proof Hok as (_ & _ & _ & [f Hf]).
  destruct (probe_window_inside max_tries h illegal_key Hok) as [H0 Hin]; [lia|].
  pose proof (probe_count_eq max_tries h illegal_key Hok) as Hcnt.
  destruct (slot_at_is_Some (__table h) (probe_index h illegal_key)) as [_ [s Hs]]; [lia|].
  pose proof Hs as [_ Hs']%slot_at_Some.
  pose proof Hfree as Hfree'.
  eapply Forall_lookup_1 in Hfree'; [|done]. subst s.
  assert (probe (lookup_stops illegal_key) (__table h)
            (probe_count max_tries h illegal_key) (probe_index h illegal_key)
          = Hit (probe_index h illegal_key) (Slot.mk illegal_key illegal_data)) as Hp.
  { apply probe_Hit_intro; [lia|done| |intros; lia].
    unfold lookup_stops. cbn. apply Z.eqb_refl. }
  eexists _, _. unfold exec.
  rewrite hashtable_find_eq, hashtable_remove_eq. cbn zeta. rewrite Hf, Hp.
  split_and!; try done.
  cbn [ht]. rewrite table_set. by apply list_insert_id.
Qed.

(** X10. With [key] in one slot only of its window, a [remove(key)] that
    succeeded cannot be repeated: the next [remove(key)] returns 0 and
    delivers nothing. *)
Theorem remove_twice_fails h key data out w :
  table_ok max_tries h -> 0 <= max_tries -> key <> illegal_key ->
  (holders max_tries h key <= 1)%nat ->
  exec (hashtable_remove max_tries illegal_key illegal_data key data) h
    = Some ((1, out), w) ->
  exists w',
    exec (hashtable_remove max_tries illegal_key illegal_data key data) (ht w)
      = Some ((0, None), w').
Proof.
  intros Hok Hm Hkey Hone [(? & _)|(_ & j & s & _ & Hp & ->)]%remove_inv; [done|].
  pose proof Hok as (_ & _ & _ & [f Hf]).
  eexists. unfold exec. rewrite hashtable_remove_eq. cbn zeta.
  rewrite hashfunction_set, Hf, probe_index_set, probe_count_set, table_set.
  by rewrite (probe_after_remove h key j s).
Qed.

(** X14. In a table built from free slots by [insert] and [find] alone, every
    entry that sits in a slot is found: [find] of the slot's key returns 1
    and delivers the slot's payload. *)
Theorem stored_entry_is_found os h0 h j s :
  table_ok max_tries h0 ->
  all_free illegal_key illegal_data (__table h0) ->
  no_remove os ->
  run_ops max_tries illegal_key illegal_data os h0 = Some h ->
  slot_at (__table h) j = Some s -> Slot.key s <> illegal_key ->
  exists w,
    exec (hashtable_find max_tries (Slot.key s)) h = Some ((1, Some (Slot.data s)), w).
Proof.
  intros Hok Hfree Hno Hrun Hs Hk.
  assert (well_placed max_tries illegal_key h) as Hwp.
  { eapply well_placed_run_ops; [done| |done].
    by apply (well_placed_all_free max_tries illegal_key illegal_data). }
  pose proof (run_ops_table_ok _ _ _ _ _ _ Hok Hrun) as (_ & _ & _ & Hf).
  pose proof (Hwp j s Hs Hk) as Hp.
  apply probe_Hit_inv in Hp as (Hr & _ & _ & Hbefore).
  destruct (find_hit max_tries h (Slot.key s) j s Hf) as (w & Hfind & _); [|by exists w].
  apply probe_Hit_intro; [done..| |].
  - unfold lookup_stops. apply Z.eqb_refl.
  - intros i Hi. destruct (Hbefore i Hi) as (s' & Hs' & Hns').
    exists s'. split; [done|]. unfold insert_stops in Hns'. unfold lookup_stops.
    by apply orb_false_iff in Hns' as [_ ?].
Qed.

(** X15. From a table as [init] leaves it, no sequence of [insert], [remove] and
    [find] faults: every operation returns, and the table keeps its shape
    ([__size = 1 << bits], [__size + max_tries] slots). *)
Theorem run_ops_never_faults os h :
  table_ok max_tries h -> 0 <= max_tries ->
  exists h', run_ops max_tries illegal_key illegal_data os h = Some h' /\
             table_ok max_tries h'.
Proof.
  intros Hok Hm. revert h Hok.
  induction os as [|o os IH]; intros h Hok; [by exists h|].
  assert (exists h1, run_op max_tries illegal_key illegal_data o h = Some h1 /\
                     table_ok max_tries h1) as (h1 & E1 & Hok1).
  { destruct o as [key data|key data|key]; cbn [run_op].
    - destruct (insert_in_bounds max_tries illegal_key h key data Hok Hm)
        as (rc & w & Hrun & _).
      rewrite Hrun. eexists. split; [done|]. by eapply insert_table_ok.
    - destruct (remove_in_bounds max_tries illegal_key illegal_data h key data Hok Hm)
        as (rc & w & Hrun & _).
      rewrite Hrun. eexists. split; [done|]. by eapply remove_table_ok.
    - destruct (find_in_bounds max_tries h key Hok Hm) as (rc & w & Hrun & _).
      rewrite Hrun. eexists. split; [done|]. by eapply find_table_ok. }
  destruct (IH h1 Hok1) as (h' & Hrun & Hok').
  exists h'. cbn [run_ops]. by rewrite E1.
Qed.
End more_op_facts.

(** ** [hash32shift] loses no key *)
Section hash_injective.

(** Multiplication by a unit modulo [2^32] is one-to-one on 32-bit values. *)
Lemma mul_unit_inj (a inv x y : Z) :
  (inv * a) mod 2 ^ 32 = 1 ->
  0 <= x < 2 ^ 32 -> 0 <= y < 2 ^ 32 ->
  (a * x) mod 2 ^ 32 = (a * y) mod 2 ^ 32 -> x = y.
Proof.
  intros Hinv Hx Hy Heq.
  assert (forall z, 0 <= z < 2 ^ 32 -> (inv * ((a * z) mod 2 ^ 32)) mod 2 ^ 32 = z) as Hback.
  { intros z Hz. rewrite Z.mul_mod_idemp_r by lia.
    rewrite Z.mul_assoc, <- Z.mul_mod_idemp_l, Hinv by lia.
    rewrite Z.mul_1_l. by apply Z.mod_small. }
  rewrite <- (Hback x Hx), <- (Hback y Hy). by rewrite Heq.
Qed.

(** [x ^ (x >> s)] is one-to-one on 32-bit values: the top bits are
    untouched, and each lower bit is recovered from the ones above it. *)
Lemma xor_shr_inj (s x y : Z) :
  0 < s -> 0 <= x < 2 ^ 32 -> 0 <= y < 2 ^ 32 ->
  Z.lxor x (Z.shiftr x s) = Z.lxor y (Z.shiftr y s) -> x = y.
Proof.
  intros Hs Hx Hy Heq.
  assert (forall z i, 0 <= z < 2 ^ 32 -> 32 <= i -> Z.testbit z i = false) as Hhigh.
  { intros z i Hz Hi. destruct (decide (z = 0)) as [->|Hz0]; [apply Z.bits_0|].
    apply Z.bits_above_log2; [lia|].
    assert (Z.log2 z < 32) by (apply Z.log2_lt_pow2; lia). lia. }
  assert (forall m : nat, forall i, 32 - Z.of_nat m <= i ->
            Z.testbit x i = Z.testbit y i) as Hbits.
  { induction m as [|m IH]; intros i Hi.
    - rewrite !Hhigh by lia. done.
    - destruct (decide (32 - Z.of_nat m <= i)) as [Hge|Hlt]; [by apply IH|].
      destruct (decide (i < 0)) as [Hneg|Hnn]; [by rewrite !Z.testbit_neg_r|].
      assert (Z.testbit (Z.lxor x (Z.shiftr x s)) i
              = Z.testbit (Z.lxor y (Z.shiftr y s)) i) as Hi' by (by rewrite Heq).
      rewrite !Z.lxor_spec, !Z.shiftr_spec in Hi' by lia.
      rewrite (IH (i + s)) in Hi' by lia.
      by destruct (Z.testbit x i), (Z.testbit y i), (Z.testbit y (i + s)). }
  apply Z.bits_inj'. intros i Hi. apply (Hbits 32%nat). lia.
Qed.

Lemma first_step_linear key :
  0 <= key < 2 ^ 32 ->
  wrap32 (wrap32 (Z.lnot key) + wrap32 (Z.shiftl key 10))
    = (1023 * key + (2 ^ 32 - 1)) mod 2 ^ 32.
Proof.
  intros Hk. rewrite lnot_u32 by done. rewrite Z.shiftl_mul_pow2 by lia.
  unfold wrap32, U32.not, U32.modulus.
  rewrite Z.add_mod_idemp_r by lia. f_equal. lia.
Qed.

Lemma third_step_linear key :
  wrap32 (key + wrap32 (Z.shiftl key 1)) = (3 * key) mod 2 ^ 32.
Proof.
  rewrite Z.shiftl_mul_pow2 by lia. unfold wrap32.
  rewrite Z.add_mod_idemp_r by lia. f_equal. lia.
Qed.

(** X20. [hash32shift] is one-to-one on 32-bit keys: two different keys never get
    the same hash.  Each of its six steps can be undone. *)
Theorem hash32shift_injective (k1 k2 : Z) :
  0 <= k1 < 2 ^ 32 -> 0 <= k2 < 2 ^ 32 ->
  hash32shift k1 = hash32shift k2 -> k1 = k2.
Proof.
  intros H1 H2. unfold hash32shift. cbn zeta.
  rewrite !first_step_linear, !third_step_linear by done.
  set (a1 := (1023 * k1 + (2 ^ 32 - 1)) mod 2 ^ 32).
  set (a2 := (1023 * k2 + (2 ^ 32 - 1)) mod 2 ^ 32).
  assert (0 <= a1 < 2 ^ 32) as Ha1 by (apply Z.mod_pos_bound; lia).
  assert (0 <= a2 < 2 ^ 32) as Ha2 by (apply Z.mod_pos_bound; lia).
  set (b1 := Z.lxor a1 (Z.shiftr a1 7)). set (b2 := Z.lxor a2 (Z.shiftr a2 7)).
  assert (0 <= b1 < 2 ^ 32) as Hb1 by (apply xor_shr_range; lia).
  assert (0 <= b2 < 2 ^ 32) as Hb2 by (apply xor_shr_range; lia).
  set (c1 := (3 * b1) mod 2 ^ 32). set (c2 := (3 * b2) mod 2 ^ 32).
  assert (0 <= c1 < 2 ^ 32) as Hc1 by (apply Z.mod_pos_bound; lia).
  assert (0 <= c2 < 2 ^ 32) as Hc2 by (apply Z.mod_pos_bound; lia).
  set (d1 := Z.lxor c1 (Z.shiftr c1 2)). set (d2 := Z.lxor c2 (Z.shiftr c2 2)).
  assert (0 <= d1 < 2 ^ 32) as Hd1 by (apply xor_shr_range; lia).
  assert (0 <= d2 < 2 ^ 32) as Hd2 by (apply xor_shr_range; lia).
  unfold wrap32.
  set (e1 := (d1 * 187) mod 2 ^ 32). set (e2 := (d2 * 187) mod 2 ^ 32).
  assert (0 <= e1 < 2 ^ 32) as He1 by (apply Z.mod_pos_bound; lia).
  assert (0 <= e2 < 2 ^ 32) as He2 by (apply Z.mod_pos_bound; lia).
  intros He%xor_shr_inj; [|lia|done..].
  unfold e1, e2 in He. rewrite !(Z.mul_comm _ 187) in He.
  apply (mul_unit_inj 187 2710193267) in He; [|reflexivity|done..].
  apply xor_shr_inj in He; [|lia|done..].
  apply (mul_unit_inj 3 2863311531) in He; [|reflexivity|done..].
  apply xor_shr_inj in He; [|lia|done..].
  unfold a1, a2 in He.
  rewrite <- (Z.add_mod_idemp_l (1023 * k1)), <- (Z.add_mod_idemp_l (1023 * k2)) in He by lia.
  assert ((1023 * k1) mod 2 ^ 32 = (1023 * k2) mod 2 ^ 32) as He'.
  { pose proof (Z.mod_pos_bound (1023 * k1) (2 ^ 32) ltac:(lia)) as B1.
    pose proof (Z.mod_pos_bound (1023 * k2) (2 ^ 32) ltac:(lia)) as B2.
    set (u1 := (1023 * k1) mod 2 ^ 32) in *. set (u2 := (1023 * k2) mod 2 ^ 32) in *.
    destruct (decide (u1 = 0)) as [E1|N1], (decide (u2 = 0)) as [E2|N2].
    - congruence.
    - rewrite E1 in He. rewrite (Z.mod_small (0 + _)) in He by lia.
      replace (u2 + (2 ^ 32 - 1)) with ((u2 - 1) + 1 * 2 ^ 32) in He by lia.
      rewrite Z.mod_add, Z.mod_small in He by lia. lia.
    - rewrite E2 in He. rewrite (Z.mod_small (0 + _)) in He by lia.
      replace (u1 + (2 ^ 32 - 1)) with ((u1 - 1) + 1 * 2 ^ 32) in He by lia.
      rewrite Z.mod_add, Z.mod_small in He by lia. lia.
    - replace (u1 + (2 ^ 32 - 1)) with ((u1 - 1) + 1 * 2 ^ 32) in He by lia.
      replace (u2 + (2 ^ 32 - 1)) with ((u2 - 1) + 1 * 2 ^ 32) in He by lia.
      rewrite !Z.mod_add, !Z.mod_small in He by lia. lia. }
  by apply (mul_unit_inj 1023 3220175871) in He'.
Qed.
End hash_injective.

Section registry_facts.
Implicit Types (reg : list (option Z)) (table : Z).

(** Where [registry_add_loop] stops: on the first entry from [i] that is
    [NULL] or [table]. *)
Lemma registry_add_loop_length n : forall i table reg,
  length (registry_add_loop n i table reg) = length reg.
Proof.
  induction n as [|n IH]; intros i table reg; [done|]. cbn.
  destruct (reg !! i) as [[t|]|]; [|by rewrite length_insert|done].
  destruct (t =? table); [done|apply IH].
Qed.

Lemma registry_add_loop_lookup n : forall i table reg k,
  (k < i)%nat -> registry_add_loop n i table reg !! k = reg !! k.
Proof.
  induction n as [|n IH]; intros i table reg k Hk; [done|]. cbn.
  destruct (reg !! i) as [[t|]|] eqn:E; [| |done].
  - destruct (t =? table); [done|]. apply IH. lia.
  - apply list_lookup_insert_ne. lia.
Qed.

Lemma registry_add_loop_keeps n : forall i table reg k t,
  reg !! k = Some (Some t) -> registry_add_loop n i table reg !! k = Some (Some t).
Proof.
  induction n as [|n IH]; intros i table reg k t Hk; [done|]. cbn.
  destruct (reg !! i) as [[t'|]|] eqn:E; [| |done].
  - destruct (t' =? table); [done|]. by apply IH.
  - rewrite list_lookup_insert_ne; [done|]. intros ->. congruence.
Qed.

Lemma registry_add_loop_registered n : forall i table reg,
  (i + n <= length reg)%nat ->
  (exists k, (i <= k < i + n)%nat /\ (reg !! k = Some None \/ reg !! k = Some (Some table))) ->
  Some table ∈ registry_add_loop n i table reg.
Proof.
  induction n as [|n IH]; intros i table reg Hlen (k & Hk & Hor); [lia|]. cbn.
  destruct (reg !! i) as [[t|]|] eqn:E.
  - destruct (Z.eqb_spec t table) as [->|Hne].
    + apply list_elem_of_lookup. by exists i.
    + apply IH; [lia|]. exists k. split; [|done].
      destruct (decide (k = i)) as [->|]; [|lia]. destruct Hor; congruence.
  - apply list_elem_of_lookup. exists i. apply list_lookup_insert_eq.
    by eapply lookup_lt_Some.
  - apply lookup_ge_None in E. lia.
Qed.

Lemma registry_add_loop_full n : forall i table reg,
  (forall k, (i <= k < i + n)%nat -> exists t, reg !! k = Some (Some t) /\ t <> table) ->
  registry_add_loop n i table reg = reg.
Proof.
  induction n as [|n IH]; intros i table reg Hfull; [done|]. cbn.
  destruct (Hfull i) as (t & -> & Hne); [lia|].
  apply Z.eqb_neq in Hne as ->. apply IH. intros k Hk. apply Hfull. lia.
Qed.

(** X21. [hashtable_registry_add] enters [table] when it is in the registry
    already or when an entry is [NULL], and only then: a registry full of
    other tables is left as it is and [table] stays out.  The registry
    keeps its 64 entries and every table in it keeps its entry. *)
Theorem registry_add_registers table reg :
  length reg = REGISTRY_SIZE ->
  length (hashtable_registry_add table reg) = REGISTRY_SIZE /\
  (forall k t, reg !! k = Some (Some t) ->
               hashtable_registry_add table reg !! k = Some (Some t)) /\
  (Some table ∈ hashtable_registry_add table reg <-> Some table ∈ reg \/ None ∈ reg) /\
  (Some table ∉ reg -> None ∉ reg -> hashtable_registry_add table reg = reg).
Proof.
  intros Hlen. unfold hashtable_registry_add.
  assert (forall k, (k < REGISTRY_SIZE)%nat -> is_Some (reg !! k)) as Hin
    by (intros k Hk; apply lookup_lt_is_Some; lia).
  assert (Some table ∉ reg -> None ∉ reg ->
          registry_add_loop REGISTRY_SIZE 0 table reg = reg) as Hfull.
  { intros Hnt Hnn. apply registry_add_loop_full. intros k Hk.
    destruct (Hin k) as [[t|] Hk']; [lia| |].
    - exists t. split; [done|]. intros ->. apply Hnt. by eapply list_elem_of_lookup_2.
    - exfalso. apply Hnn. by eapply list_elem_of_lookup_2. }
  split_and!; [by rewrite registry_add_loop_length| |split|done].
  - intros k t. apply registry_add_loop_keeps.
  - intros Hreg.
    destruct (decide (Some table ∈ reg)) as [|Hnt]; [by left|].
    destruct (decide (None ∈ reg)) as [|Hnn]; [by right|].
    by rewrite Hfull in Hreg.
  - intros Hor. apply registry_add_loop_registered; [lia|].
    destruct Hor as [[k Hk]%list_elem_of_lookup|[k Hk]%list_elem_of_lookup];
      exists k; (split; [apply lookup_lt_Some in Hk; lia|]); by eauto.
Qed.

(** X23. Calling [hashtable_registry_add] again right away changes nothing. *)
Theorem registry_add_idempotent table reg :
  hashtable_registry_add table (hashtable_registry_add table reg)
  = hashtable_registry_add table reg.
Proof.
  unfold hashtable_registry_add. generalize REGISTRY_SIZE 0%nat.
  intros n. revert reg. induction n as [|n IH]; intros reg i; [done|]. cbn.
  destruct (reg !! i) as [[t|]|] eqn:E.
  - destruct (Z.eqb_spec t table) as [->|Hne].
    + cbn. by rewrite E, Z.eqb_refl.
    + cbn. rewrite registry_add_loop_lookup, E by lia.
      apply Z.eqb_neq in Hne as ->. apply IH.
  - cbn. rewrite list_lookup_insert_eq by (by eapply lookup_lt_Some).
    by rewrite Z.eqb_refl.
  - cbn. by rewrite E.
Qed.

(** X22. [hashtable_registry_add] is first-fit: when [i] is the first entry that
    is [NULL] or [table], entry [i] becomes [table] and nothing else
    changes.  It does not look past a [NULL] entry, so a table registered
    further on gets a second entry. *)
Theorem registry_add_first_fit table reg i :
  (i < REGISTRY_SIZE)%nat ->
  (reg !! i = Some None \/ reg !! i = Some (Some table)) ->
  (forall k, (k < i)%nat -> exists t, reg !! k = Some (Some t) /\ t <> table) ->
  hashtable_registry_add table reg = <[i := Some table]> reg.
Proof.
  unfold hashtable_registry_add. intros Hi Hor Hbefore.
  assert (forall n j, (j <= i < j + n)%nat ->
            registry_add_loop n j table reg = <[i := Some table]> reg) as Hloop.
  { induction n as [|n IH]; intros j Hj; [lia|]. cbn [registry_add_loop].
    destruct (decide (j = i)) as [->|Hne].
    - destruct Hor as [Hor|Hor]; rewrite Hor; [done|]. rewrite Z.eqb_refl.
      symmetry. by apply list_insert_id.
    - destruct (Hbefore j) as (t & -> & Ht); [lia|].
      apply Z.eqb_neq in Ht as ->. apply IH. lia. }
  apply Hloop. lia.
Qed.

Lemma registry_remove_loop_length n : forall i table reg,
  length (registry_remove_loop n i table reg) = length reg.
Proof.
  induction n as [|n IH]; intros i table reg; [done|]. cbn [registry_remove_loop].
  destruct (reg !! i) as [[t|]|]; [|apply IH..].
  destruct (t =? table); rewrite IH; [apply length_insert|done].
Qed.

Lemma registry_remove_loop_step n i table reg :
  registry_remove_loop (S n) i table reg =
    registry_remove_loop n (S i) table
      (if decide (reg !! i = Some (Some table)) then <[i := None]> reg else reg).
Proof.
  cbn [registry_remove_loop]. destruct (reg !! i) as [[t|]|] eqn:E.
  - destruct (Z.eqb_spec t table) as [->|Hne].
    + by rewrite decide_True.
    + rewrite decide_False; [done|]. congruence.
  - by rewrite decide_False.
  - by rewrite decide_False.
Qed.

Lemma registry_remove_loop_lookup n : forall i table reg k,
  registry_remove_loop n i table reg !! k =
    if decide ((i <= k < i + n)%nat /\ reg !! k = Some (Some table))
    then Some None else reg !! k.
Proof.
  induction n as [|n IH]; intros i table reg k.
  { cbn. rewrite decide_False; [done|lia]. }
  rewrite registry_remove_loop_step, IH.
  destruct (decide (k = i)) as [->|Hki].
  - rewrite (decide_False (P := (S i <= i < _)%nat /\ _)) by lia.
    destruct (decide (reg !! i = Some (Some table))) as [Hi|Hi].
    + rewrite list_lookup_insert_eq by (by eapply lookup_lt_Some).
      rewrite decide_True; [done|]. split; [lia|done].
    + rewrite decide_False; [done|]. by intros [_ ?].
  - assert ((if decide (reg !! i = Some (Some table)) then <[i:=None]> reg else reg) !! k
            = reg !! k) as ->.
    { case_decide; [by apply list_lookup_insert_ne|done]. }
    destruct (decide (reg !! k = Some (Some table))) as [Hk|Hk].
    + destruct (decide (i <= k < i + S n)%nat) as [Hr|Hr].
      * rewrite !decide_True; [done|split; [lia|done]|split; [lia|done]].
      * rewrite !decide_False; [done|intros [? _]; lia|intros [? _]; lia].
    + rewrite !decide_False; [done|by intros [_ ?]|by intros [_ ?]].
Qed.

Lemma registry_remove_lookup table reg k :
  length reg = REGISTRY_SIZE ->
  hashtable_registry_remove table reg !! k =
    if decide (reg !! k = Some (Some table)) then Some None else reg !! k.
Proof.
  intros Hlen. unfold hashtable_registry_remove. rewrite registry_remove_loop_lookup.
  destruct (decide (reg !! k = Some (Some table))) as [Hk|Hk].
  - rewrite decide_True; [done|]. split; [|done]. apply lookup_lt_Some in Hk. lia.
  - rewrite decide_False; [done|]. by intros [_ ?].
Qed.

(** X24. [hashtable_registry_remove] sets every entry of [table] to [NULL] and
    leaves all other entries alone: afterwards [table] is not registered. *)
Theorem registry_remove_clears table reg :
  length reg = REGISTRY_SIZE ->
  (forall k, hashtable_registry_remove table reg !! k =
             if decide (reg !! k = Some (Some table)) then Some None else reg !! k) /\
  length (hashtable_registry_remove table reg) = REGISTRY_SIZE /\
  Some table ∉ hashtable_registry_remove table reg.
Proof.
  intros Hlen. split_and!.
  - intros k. by apply registry_remove_lookup.
  - unfold hashtable_registry_remove. by rewrite registry_remove_loop_length.
  - intros [k Hk]%list_elem_of_lookup. rewrite registry_remove_lookup in Hk by done.
    case_decide; congruence.
Qed.

(** X25. Registering a table that is not in the registry and removing it again
    gives the registry back. *)
Theorem registry_add_remove table reg :
  length reg = REGISTRY_SIZE -> Some table ∉ reg ->
  hashtable_registry_remove table (hashtable_registry_add table reg) = reg.
Proof.
  intros Hlen Hnot.
  apply list_eq. intros k. rewrite registry_remove_lookup
    by (unfold hashtable_registry_add; by rewrite registry_add_loop_length).
  assert (forall n i,
    registry_add_loop n i table reg = reg \/
    exists j, reg !! j = Some None /\
              registry_add_loop n i table reg = <[j := Some table]> reg) as Hshape.
  { induction n as [|n IH]; intros i; [by left|]. cbn.
    destruct (reg !! i) as [[t|]|] eqn:E; [|right; by exists i|by left].
    destruct (t =? table); [by left|apply IH]. }
  unfold hashtable_registry_add.
  destruct (Hshape REGISTRY_SIZE 0%nat) as [->|(j & Hj & ->)].
  - rewrite decide_False; [done|]. intros Hk. apply Hnot. by eapply list_elem_of_lookup_2.
  - destruct (decide (k = j)) as [->|Hne].
    + rewrite list_lookup_insert_eq by (by eapply lookup_lt_Some).
      by rewrite decide_True.
    + rewrite list_lookup_insert_ne by done.
      rewrite decide_False; [done|]. intros Hk. apply Hnot. by eapply list_elem_of_lookup_2.
Qed.

Lemma registry_add_loop_compact (tables : list Z) : forall (pre : list (option Z)) n m table,
  registry_add_loop n (length pre) table
      (pre ++ (Some <$> tables) ++ replicate m None) =
    if decide ((table ∉ tables) /\ (length tables < n)%nat /\ (0 < m)%nat)
    then pre ++ (Some <$> tables) ++ Some table :: replicate (m - 1) None
    else pre ++ (Some <$> tables) ++ replicate m None.
Proof.
  induction tables as [|t ts IH]; intros pre n m table.
  - cbn [fmap list_fmap app length]. destruct n as [|n].
    { cbn. rewrite decide_False; [done|lia]. }
    cbn [registry_add_loop]. rewrite lookup_app_r, Nat.sub_diag by done.
    destruct m as [|m].
    + cbn. rewrite app_nil_r. rewrite decide_False; [done|lia].
    + cbn [replicate lookup list_lookup]. rewrite decide_True.
      * rewrite insert_app_r_alt, Nat.sub_diag by done. cbn. by rewrite Nat.sub_0_r.
      * split_and!; [apply not_elem_of_nil|lia|lia].
  - destruct n as [|n].
    { cbn [registry_add_loop]. rewrite decide_False; [done|lia]. }
    cbn [registry_add_loop fmap list_fmap]. rewrite lookup_app_r, Nat.sub_diag by done.
    cbn [app lookup list_lookup].
    destruct (Z.eqb_spec t table) as [->|Hne].
    + rewrite decide_False; [done|]. intros [Hnot _]. apply Hnot. left.
    + specialize (IH (pre ++ [Some t]) n m table).
      rewrite length_app, Nat.add_1_r in IH. rewrite <- !(assoc_L (++)) in IH.
      cbn [app] in IH. rewrite IH. cbn [length].
      destruct (decide ((table ∉ ts) /\ (length ts < n)%nat /\ (0 < m)%nat)) as [Hd|Hd].
      * rewrite decide_True; [done|]. destruct Hd as (? & ? & ?).
        split_and!; [|lia|lia]. rewrite not_elem_of_cons. split; [congruence|done].
      * rewrite decide_False; [done|]. intros (Hnot & ? & ?). apply Hd.
        split_and!; [|lia|lia]. by apply not_elem_of_cons in Hnot as [_ ?].
Qed.

Lemma registry_add_keeps_compact table reg :
  registry_compact reg -> registry_compact (hashtable_registry_add table reg).
Proof.
  intros (tables & Hnd & -> & Hlen). unfold hashtable_registry_add.
  pose proof (registry_add_loop_compact tables [] REGISTRY_SIZE
                (REGISTRY_SIZE - length tables) table) as Hloop.
  cbn [app length] in Hloop. rewrite Hloop. case_decide as Hd.
  - destruct Hd as (Hnot & _ & Hroom). exists (tables ++ [table]).
    split_and!.
    + apply NoDup_app. split_and!; [done| |apply NoDup_singleton].
      intros x Hx ->%list_elem_of_singleton. done.
    + rewrite fmap_app, <- (assoc_L (++)), length_app. cbn. do 3 f_equal. lia.
    + rewrite length_app. cbn. lia.
  - by exists tables.
Qed.

(** X26. A registry filled by [hashtable_registry_add] alone, from the empty one,
    holds no table twice, and its tables come before its [NULL] entries. *)
Theorem registry_of_adds_is_compact (tables : list Z) :
  registry_compact
    (foldl (fun reg table => hashtable_registry_add table reg)
           hashtable_registry_empty tables).
Proof.
  assert (registry_compact hashtable_registry_empty) as H0.
  { exists []. split_and!; [apply NoDup_nil_2|done|cbn; lia]. }
  revert H0. generalize hashtable_registry_empty.
  induction tables as [|t ts IH]; intros reg Hreg; [done|].
  cbn [foldl]. apply IH. by apply registry_add_keeps_compact.
Qed.
End registry_facts.

(** ** Lookups on a free table *)
Section free_table.
Context {data_type : Type}.
Variables (max_tries illegal_key : Z) (illegal_data : data_type).
Implicit Types (h : hashtable_t data_type).

(** On a table whose slots are all free a lookup of a key other than
    [illegal_key] sees nothing. *)
Lemma all_free_lookup_miss h key :
  table_ok max_tries h -> 0 <= max_tries ->
  all_free illegal_key illegal_data (__table h) -> key <> illegal_key ->
  probe (lookup_stops key) (__table h) (probe_count max_tries h key) (probe_index h key)
    = Miss.
Proof.
  intros Hok Hm Hfree Hk.
  destruct (probe_window_inside max_tries h key Hok Hm) as [H0 Hin].
  apply probe_Miss_intro. intros i Hi.
  destruct (slot_at_is_Some (__table h) i) as [_ [s Hs]]; [lia|].
  exists s. split; [done|]. pose proof Hs as [_ Hs']%slot_at_Some.
  eapply Forall_lookup_1 in Hfree; [|done]. subst s.
  unfold lookup_stops. cbn. apply Z.eqb_neq. congruence.
Qed.
End free_table.

(** ** The drivers run alone *)
Section driver_facts.
Import hashtable_test hashtable_test_main.
Implicit Types (h : hashtable_t Z).

Lemma size_fits h : table_ok 4 h -> __size h + 4 <= 2 ^ 32.
Proof.
  intros (Hb & -> & _). pose proof (pow2_bits_range _ Hb). lia.
Qed.

(** One turn of [thread_job] on a table whose slots are all free: every
    check passes and the slots are all free again. *)
Lemma thread_job_body_alone h tr v :
  table_ok 4 h -> all_free 0 0 (__table h) ->
  v <> 0 -> wrap32 (Z.lnot v) <> 0 -> wrap32 (Z.lnot v) <> v ->
  exists st' tr',
    thread_job_body v (mk_world h tr) = Some (None, mk_world (set_stat st' h) tr') /\
    Stat.insert_err st' = Stat.insert_err (__stat h) /\
    Stat.remove_err st' = Stat.remove_err (__stat h) /\
    Stat.collision st' = Stat.collision (__stat h).
Proof.
  intros Hok Hfree Hv Hnv0 Hnv.
  pose proof (size_fits h Hok) as Hfit.
  destruct (probe_window_inside 4 h v Hok ltac:(lia)) as [H0 Hin].
  pose proof (probe_count_eq 4 h v Hok ltac:(lia) Hfit) as Hcnt.
  destruct (slot_at_is_Some (__table h) (probe_index h v)) as [_ [s Hs]]; [lia|].
  pose proof Hs as [_ Hs']%slot_at_Some.
  pose proof Hfree as Hfree'. eapply Forall_lookup_1 in Hfree'; [|done]. subst s.
  set (tbl1 := <[Z.to_nat (probe_index h v) := Slot.mk v v]> (__table h)).
  assert (probe (insert_stops 0 v) (__table h) (probe_count 4 h v) (probe_index h v)
          = Hit (probe_index h v) (Slot.mk 0 0)) as P1.
  { apply probe_Hit_intro; [lia|done|done|intros; lia]. }
  assert (probe (lookup_stops v) tbl1 (probe_count 4 h v) (probe_index h v)
          = Hit (probe_index h v) (Slot.mk v v)) as P2.
  { apply probe_Hit_intro; [lia|by eapply slot_at_insert_eq| |intros; lia].
    unfold lookup_stops. cbn [Slot.key]. apply Z.eqb_refl. }
  assert (probe (lookup_stops (wrap32 (Z.lnot v))) tbl1
            (probe_count 4 h (wrap32 (Z.lnot v))) (probe_index h (wrap32 (Z.lnot v)))
          = Miss) as P3.
  { unfold tbl1. rewrite (probe_insert_irrelevant _ _ _ (Slot.mk 0 0)); try done.
    - by apply (all_free_lookup_miss 4 0 0).
    - unfold lookup_stops. cbn [Slot.key]. by apply Z.eqb_neq.
    - unfold lookup_stops. cbn [Slot.key]. apply Z.eqb_neq. congruence.
    - apply probe_index_nonneg. }
  assert (probe (lookup_stops v) (__table h) (probe_count 4 h v) (probe_index h v)
          = Miss) as P4 by (by apply (all_free_lookup_miss 4 0 0)).
  assert (<[Z.to_nat (probe_index h v) := Slot.mk 0 0]> tbl1 = __table h) as Hback.
  { unfold tbl1. rewrite list_insert_insert_eq. by apply list_insert_id. }
  subst tbl1.
  destruct h as [nm b [f|] sz ms st tbl]; [|by destruct Hok as (_ & _ & _ & [? ?])].
  unfold probe_count, probe_index, hashtable_get_index in *.
  cbn [hashfunction __size __table __stat] in *.
  unfold thread_job_body, hashtable_uint32_insert, hashtable_uint32_find,
    hashtable_uint32_remove.
  unfold bind at 1. rewrite hashtable_insert_eq. cbn zeta.
  unfold probe_count, probe_index, hashtable_get_index.
  cbn [hashfunction __size __table __stat set_stat set_table]. rewrite P1.
  cbn [Z.eqb Slot.key ht touched]. rewrite Z.sub_diag. cbn [Z.to_nat Nat.iter nat_rect id].
  unfold bind at 1. rewrite hashtable_find_eq. cbn zeta.
  unfold probe_count, probe_index, hashtable_get_index.
  cbn [hashfunction __size __table __stat set_stat set_table name bits __memory_size].
  rewrite P2. cbn [fst snd Z.eqb lift Slot.data]. unfold bind at 1, ret at 1.
  rewrite Z.eqb_refl. cbn [negb].
  unfold bind at 1. rewrite hashtable_find_eq. cbn zeta.
  unfold probe_count, probe_index, hashtable_get_index.
  cbn [hashfunction __size __table __stat set_stat set_table name bits __memory_size].
  rewrite P3. cbn [fst snd Z.eqb negb].
  unfold bind at 1. rewrite hashtable_remove_eq. cbn zeta.
  unfold probe_count, probe_index, hashtable_get_index.
  cbn [hashfunction __size __table __stat set_stat set_table name bits __memory_size].
  rewrite P2. cbn [fst snd Z.eqb lift Slot.data]. unfold bind at 1, ret at 1.
  rewrite Z.eqb_refl. cbn [negb]. rewrite Hback.
  unfold bind at 1. rewrite hashtable_find_eq. cbn zeta.
  unfold probe_count, probe_index, hashtable_get_index.
  cbn [hashfunction __size __table __stat set_stat set_table name bits __memory_size].
  rewrite P4. cbn [fst snd Z.eqb negb]. unfold ret.
  eexists _, _. split; [reflexivity|]. by destruct st.
Qed.

Lemma thread_job_loop_alone n : forall h tr v,
  table_ok 4 h -> all_free 0 0 (__table h) ->
  v <> 0 -> wrap32 (Z.lnot v) <> 0 -> wrap32 (Z.lnot v) <> v ->
  exists st' tr',
    thread_job_loop n v (mk_world h tr) = Some (None, mk_world (set_stat st' h) tr') /\
    Stat.insert_err st' = Stat.insert_err (__stat h) /\
    Stat.remove_err st' = Stat.remove_err (__stat h) /\
    Stat.collision st' = Stat.collision (__stat h).
Proof.
  induction n as [|n IH]; intros h tr v Hok Hfree Hv Hnv0 Hnv.
  - exists (__stat h), tr. cbn. unfold ret. by destruct h.
  - destruct (thread_job_body_alone h tr v Hok Hfree Hv Hnv0 Hnv)
      as (st1 & tr1 & Hb & He1 & He2 & He3).
    destruct (IH (set_stat st1 h) tr1 v) as (st2 & tr2 & Hl & Hf1 & Hf2 & Hf3);
      [by apply set_stat_table_ok|by destruct h|done..|].
    exists st2, tr2. cbn [thread_job_loop]. unfold bind at 1. rewrite Hb, Hl.
    split; [by destruct h|]. destruct h; cbn in *. split_and!; congruence.
Qed.

Lemma get_value_collision_range idx v :
  get_value_collision idx = Some v ->
  v <> 0 /\ wrap32 (Z.lnot v) <> 0 /\ wrap32 (Z.lnot v) <> v.
Proof.
  unfold get_value_collision, HASHTABLE_BITS. intros H.
  destruct (Z.leb_spec 0 idx) as [H1|]; [|done].
  destruct (Z.leb_spec idx 22) as [H2|]; [|done]. cbn [andb] in H.
  injection H as <-. rewrite !Z.shiftl_mul_pow2 by lia.
  assert (1 <= 2 ^ idx <= 2 ^ 22) as Hp.
  { split; [apply (Z.pow_le_mono_r 2 0 idx); lia
           |apply Z.pow_le_mono_r; lia]. }
  unfold wrap32, Z.lnot.
  assert (Z.pred (- (1 * 2 ^ 8 * 2 ^ idx)) mod 2 ^ 32
          = 2 ^ 32 - 1 - 2 ^ 8 * 2 ^ idx) as ->.
  { symmetry. apply (Z.mod_unique _ _ (-1)); lia. }
  lia.
Qed.

(** X27. [thread_job] running alone on the table with all slots free: however
    long it is watched it stays in its loop, none of its checks fails, and
    after every turn the slots are as they were. *)
Theorem thread_job_alone_keeps_running n idx h :
  table_ok 4 h -> all_free 0 0 (__table h) -> 0 <= idx <= 22 ->
  exists w,
    exec (thread_job n idx) h = Some (None, w) /\
    __table (ht w) = __table h /\
    Stat.insert_err (__stat (ht w)) = Stat.insert_err (__stat h) /\
    Stat.remove_err (__stat (ht w)) = Stat.remove_err (__stat h) /\
    Stat.collision (__stat (ht w)) = Stat.collision (__stat h).
Proof.
  intros Hok Hfree Hidx. unfold exec, thread_job.
  destruct (get_value_collision idx) as [v|] eqn:Ev.
  - destruct (get_value_collision_range idx v Ev) as (Hv & Hnv0 & Hnv).
    destruct (thread_job_loop_alone n h [] v Hok Hfree Hv Hnv0 Hnv)
      as (st' & tr' & Hl & He).
    unfold bind at 1. cbn [lift]. unfold ret at 1. rewrite Hl. eexists. split; [done|].
    cbn [ht]. by destruct h.
  - unfold get_value_collision in Ev.
    destruct (Z.leb_spec 0 idx), (Z.leb_spec idx 22); cbn in Ev; (done || lia).
Qed.

(** Once the first loop of [synchronous_access] has returned, more
    iterations change nothing. *)
Lemma synchronous_insert_loop_more n : forall i w rc w' k,
  synchronous_insert_loop n i w = Some (Some rc, w') ->
  synchronous_insert_loop (n + k) i w = Some (Some rc, w').
Proof.
  induction n as [|n IH]; intros i w rc w' k; [done|].
  cbn [synchronous_insert_loop Nat.add]. unfold bind.
  destruct (hashtable_uint32_insert _ _ w) as [[r w1]|]; [|done].
  destruct (r =? 0); [done|]. apply IH.
Qed.

Lemma synchronous_access_stops n k w0 w :
  synchronous_insert_loop n 0 w0 = Some (Some 0, w) ->
  synchronous_access (Z.of_nat (n + k)) w0 = Some (0, w).
Proof.
  intros H. unfold synchronous_access. rewrite Nat2Z.id. unfold bind at 1.
  by rewrite (synchronous_insert_loop_more _ _ _ _ _ k H).
Qed.

Lemma synchronous_access_small cpus :
  0 <= cpus <= 256 -> synchronous_access_clean cpus = true.
Proof.
  intros Hc.
  assert (forallb synchronous_access_clean (seqZ 0 257) = true) as Hall
    by (vm_compute; reflexivity).
  rewrite forallb_forall in Hall. apply Hall.
  apply list_elem_of_In, elem_of_seqZ. lia.
Qed.

(** X28. [synchronous_access] on the table [hashtable_uint32_init] leaves behind:
    it returns 1 exactly for [cpus <= 256]; then every slot is free again and
    no insert or remove has failed. From 257 on, key 256 has taken slot 0 as
    free (key 0 is [illegal_key]) and the function returns 0. *)
Theorem synchronous_access_passes_up_to_256 cpus :
  exists w,
    exec (synchronous_access cpus) hashtable_fresh
      = Some (if cpus <=? 256 then 1 else 0, w) /\
    (cpus <= 256 ->
       all_free 0 0 (__table (ht w)) /\
       Stat.insert_err (__stat (ht w)) = 0 /\
       Stat.remove_err (__stat (ht w)) = 0).
Proof.
  assert (exec (synchronous_access cpus) hashtable_fresh
          = exec (synchronous_access (Z.of_nat (Z.to_nat cpus))) hashtable_fresh) as ->.
  { unfold synchronous_access. by rewrite Nat2Z.id. }
  destruct (Z.leb_spec cpus 256) as [Hle|Hgt].
  - pose proof (synchronous_access_small (Z.of_nat (Z.to_nat cpus)) ltac:(lia)) as Hc.
    unfold synchronous_access_clean in Hc. revert Hc.
    destruct (exec (synchronous_access (Z.of_nat (Z.to_nat cpus))) hashtable_fresh)
      as [[rc w]|]; [|discriminate].
    intros Hc. repeat (apply andb_prop in Hc as [Hc ?]).
    exists w. split; [f_equal; f_equal; lia|]. intros _.
    split_and!; try lia.
    apply Forall_forall. intros s Hs.
    match goal with H : forallb _ _ = true |- _ => rewrite forallb_forall in H;
      apply list_elem_of_In, H in Hs end.
    apply andb_prop in Hs as [Hk Hd]. destruct s as [k d]. cbn in *.
    f_equal; lia.
  - destruct (decide (cpus = 257)) as [->|Hne].
    + assert (match exec (synchronous_access 257) hashtable_fresh with
              | Some (0, _) => true | _ => false end = true) as Hc
        by (vm_compute; reflexivity).
      change (Z.of_nat (Z.to_nat 257)) with 257. revert Hc.
      destruct (exec (synchronous_access 257) hashtable_fresh) as [[[| |] w]|];
        try (intros Hx; exact (False_ind _ (Bool.diff_false_true Hx))).
      intros _. exists w. split; [reflexivity|lia].
    + assert (match synchronous_insert_loop 258 0 (mk_world hashtable_fresh []) with
              | Some (Some 0, _) => true | _ => false end = true) as Hc
        by (vm_compute; reflexivity).
      revert Hc.
      destruct (synchronous_insert_loop 258 0 (mk_world hashtable_fresh []))
        as [[[[| |]|] w]|] eqn:E;
        try (intros Hx; exact (False_ind _ (Bool.diff_false_true Hx))).
      intros _. exists w. split; [|lia].
      replace (Z.to_nat cpus) with (258 + (Z.to_nat cpus - 258))%nat by lia.
      exact (synchronous_access_stops 258 (Z.to_nat cpus - 258)
               (mk_world hashtable_fresh []) w E).
Qed.
End driver_facts.

(** ** [linux_inc_index] *)
Section linux_utils_facts.

(** X29. [linux_inc_index] never leaves [0 .. max_index], whatever index it is
    given, and from an index inside that range it steps to the next one
    modulo [max_index + 1]. *)
Theorem linux_inc_index_wraps index max_index :
  0 <= index < 2 ^ 32 -> 0 <= max_index < 2 ^ 32 ->
  0 <= linux_inc_index index max_index <= max_index /\
  (index <= max_index ->
   linux_inc_index index max_index = (index + 1) mod (max_index + 1)).
Proof.
  intros Hi Hm. unfold linux_inc_index, wrap32. cbn zeta.
  destruct (decide (index = 2 ^ 32 - 1)) as [->|Hne].
  - change ((2 ^ 32 - 1 + 1) mod 2 ^ 32) with 0.
    destruct (Z.ltb_spec max_index 0); [lia|]. split; [lia|]. intros Hle.
    assert (max_index = 2 ^ 32 - 1) as -> by lia. done.
  - rewrite (Z.mod_small (index + 1)) by lia.
    destruct (Z.ltb_spec max_index (index + 1)) as [Hlt|Hge].
    + split; [lia|]. intros Hle. assert (index = max_index) as -> by lia.
      by rewrite Z.mod_same by lia.
    + split; [lia|]. intros _. by rewrite Z.mod_small by lia.
Qed.
End linux_utils_facts.

(** ** [hashtable_get_index] *)
Section get_index_facts.
Context {data_type : Type}.
Implicit Types (h : hashtable_t data_type).

(** X30. The mask of [hashtable_get_index] is a remainder when [__size] is
    a power of two: the index is the hash modulo [__size], so it is below
    [__size].  On a descriptor that was never initialised ([__size = 0])
    [__size - 1] wraps to all ones and the index is the hash itself. *)
Theorem hashtable_get_index_is_mod h hash :
  0 <= hash < 2 ^ 32 ->
  (forall b, 0 <= b < 64 -> __size h = 2 ^ b ->
     hashtable_get_index h hash = hash mod __size h /\
     0 <= hashtable_get_index h hash < __size h) /\
  (__size h = 0 -> hashtable_get_index h hash = hash).
Proof.
  intros Hh. unfold hashtable_get_index. split.
  - intros b Hb Hsz. rewrite Hsz.
    assert (0 < 2 ^ b <= 2 ^ 63) as Hp.
    { split; [apply Z.pow_pos_nonneg; lia|apply Z.pow_le_mono_r; lia]. }
    rewrite wrap64_small by lia.
    replace (2 ^ b - 1) with (Z.ones b) by (rewrite Z.ones_equiv; lia).
    rewrite Z.land_ones by lia. split; [done|]. apply Z.mod_pos_bound. lia.
  - intros ->. change (wrap64 (0 - 1)) with (Z.ones 64).
    rewrite Z.land_ones by lia. apply Z.mod_small. lia.
Qed.
End get_index_facts.

(** ** The further properties on the test table *)
Section more_test_runs.
Import hashtable_test hashtable_test_main.

Lemma hashtable_fresh_free : all_free 0 0 (__table hashtable_fresh).
Proof. unfold all_free, hashtable_fresh. cbn [__table]. by apply Forall_replicate. Qed.

Lemma hashtable_fresh_empty : represents 4 0 hashtable_fresh ∅.
Proof.
  intros k Hk. unfold table_lookup.
  rewrite (all_free_lookup_miss 4 0 0 hashtable_fresh k hashtable_fresh_ok);
    [by rewrite lookup_empty|lia|apply hashtable_fresh_free|done].
Qed.

Lemma four_inserts_no_remove :
  no_remove [Insert 256 256; Insert 512 512; Insert 768 768; Insert 1024 (1024 : Z)].
Proof. unfold no_remove. by repeat constructor. Qed.

Lemma registry_empty_unregistered table : Some table ∉ hashtable_registry_empty.
Proof. unfold hashtable_registry_empty. by intros [? _]%elem_of_replicate. Qed.

Lemma find_is_read_only_witness :
  exists w,
    exec (hashtable_uint32_find 512) hashtable_full = Some ((1, Some 512), w) /\
    __table (ht w) = __table hashtable_full.
Proof.
  assert (exists w,
    exec (hashtable_uint32_find 512) hashtable_full = Some ((1, Some 512), w))
    as [w H] by (eexists; vm_compute; reflexivity).
  exists w. split; [exact H|].
  exact (proj1 (find_is_read_only 4 hashtable_full 512 _ w H)).
Defined.

Lemma find_counters_witness :
  exists w,
    exec (hashtable_uint32_find 1280) hashtable_full = Some ((0, None), w) /\
    Stat.search (__stat (ht w)) = wrap64 (Stat.search (__stat hashtable_full) + 1).
Proof.
  assert (exists w,
    exec (hashtable_uint32_find 1280) hashtable_full = Some ((0, None), w))
    as [w H] by (eexists; vm_compute; reflexivity).
  exists w. split; [exact H|].
  exact (proj1 (find_counters 4 hashtable_full 1280 0 None w H)).
Defined.

Lemma find_result_witness :
  exists w,
    exec (hashtable_uint32_find 1280) hashtable_full = Some ((0, None), w) /\
    none_in_window 4 (lookup_stops 1280) hashtable_full 1280.
Proof.
  assert (exists w,
    exec (hashtable_uint32_find 1280) hashtable_full = Some ((0, None), w))
    as [w H] by (eexists; vm_compute; reflexivity).
  exists w. split; [exact H|].
  destruct (find_result 4 hashtable_full 1280 0 None w H)
    as [(Hrc & _)|(_ & _ & Hnone)]; [discriminate Hrc|exact Hnone].
Defined.

Lemma remove_counters_witness :
  exists w,
    exec (hashtable_uint32_remove 1280 true) hashtable_full = Some ((0, None), w) /\
    Stat.remove (__stat (ht w)) = wrap64 (Stat.remove (__stat hashtable_full) + 1).
Proof.
  assert (exists w,
    exec (hashtable_uint32_remove 1280 true) hashtable_full = Some ((0, None), w))
    as [w H] by (eexists; vm_compute; reflexivity).
  exists w. split; [exact H|].
  exact (proj1 (proj2 (remove_counters 4 0 0 hashtable_full 1280 true 0 None w H))).
Defined.

Lemma remove_frees_first_holder_witness :
  exists w j,
    exec (hashtable_uint32_remove 512 true) hashtable_full = Some ((1, Some 512), w) /\
    slot_at (__table (ht w)) j = Some (Slot.mk 0 0).
Proof.
  assert (exists w,
    exec (hashtable_uint32_remove 512 true) hashtable_full = Some ((1, Some 512), w))
    as [w H] by (eexists; vm_compute; reflexivity).
  destruct (remove_frees_first_holder 4 0 0 hashtable_full 512 true _ w H)
    as (j & s & _ & _ & _ & Hj & _).
  exists w, j. split; [exact H|exact Hj].
Defined.

Lemma insert_writes_first_fit_witness :
  exists w j,
    exec (hashtable_uint32_insert 768 99) hashtable_full = Some (1, w) /\
    slot_at (__table (ht w)) j = Some (Slot.mk 768 99).
Proof.
  assert (exists w,
    exec (hashtable_uint32_insert 768 99) hashtable_full = Some (1, w))
    as [w H] by (eexists; vm_compute; reflexivity).
  destruct (insert_writes_first_fit 4 0 hashtable_full 768 99 w H)
    as (j & s & _ & Hj & _).
  exists w, j. split; [exact H|exact Hj].
Defined.

Lemma insert_fails_iff_window_taken_witness :
  exists w,
    exec (hashtable_uint32_insert 1280 1280) hashtable_full = Some (0, w) /\
    none_in_window 4 (insert_stops 0 1280) hashtable_full 1280.
Proof.
  assert (exists w,
    exec (hashtable_uint32_insert 1280 1280) hashtable_full = Some (0, w))
    as [w H] by (eexists; vm_compute; reflexivity).
  exists w. split; [exact H|].
  exact (proj1 (proj2 (insert_fails_iff_window_taken 4 0 hashtable_full 1280 1280 0 w H))
           eq_refl).
Defined.

Lemma insert_refines_map_witness :
  represents 4 0 hashtable_fresh ∅ /\ 256 <> 0 /\
  exists w,
    exec (hashtable_uint32_insert 256 7) hashtable_fresh = Some (1, w) /\
    represents 4 0 (ht w) (<[256:=7]> ∅).
Proof.
  split; [apply hashtable_fresh_empty|]. split; [lia|].
  assert (exists w,
    exec (hashtable_uint32_insert 256 7) hashtable_fresh = Some (1, w))
    as [w H] by (eexists; vm_compute; reflexivity).
  exists w. split; [exact H|].
  apply (insert_refines_map 4 0 hashtable_fresh ∅ 256 7 1 w hashtable_fresh_empty);
    [lia|exact H].
Defined.



Lemma all_free_represents_empty_witness :
  table_ok 4 hashtable_fresh /\ 0 <= 4 /\ all_free 0 0 (__table hashtable_fresh) /\
  represents 4 0 hashtable_fresh ∅.
Proof.
  split; [apply hashtable_fresh_ok|]. split; [lia|].
  split; [apply hashtable_fresh_free|].
  apply (all_free_represents_empty 4 0 0 hashtable_fresh hashtable_fresh_ok);
    [lia|apply hashtable_fresh_free].
Defined.

Lemma insert_overwrites_witness :
  256 <> 0 /\
  exists w1 w2,
    exec (hashtable_uint32_insert 256 7) hashtable_fresh = Some (1, w1) /\
    exec (hashtable_uint32_insert 256 8) (ht w1) = Some (1, w2) /\
    Stat.overwritten (__stat (ht w2)) = wrap64 (Stat.overwritten (__stat (ht w1)) + 1).
Proof.
  split; [lia|].
  assert (exists w1,
    exec (hashtable_uint32_insert 256 7) hashtable_fresh = Some (1, w1))
    as [w1 H] by (eexists; vm_compute; reflexivity).
  destruct (insert_overwrites 4 0 hashtable_fresh 256 7 8 w1) as
    (j & w2 & _ & H2 & _ & _ & Ho); [lia|exact H|].
  exists w1, w2. split; [exact H|]. split; [exact H2|exact Ho].
Defined.

Lemma illegal_key_found_on_free_table_witness :
  table_ok 4 hashtable_fresh /\ 0 < 4 /\ __size hashtable_fresh + 4 <= 2 ^ 32 /\
  all_free 0 0 (__table hashtable_fresh) /\
  exists w, exec (hashtable_uint32_find 0) hashtable_fresh = Some ((1, Some 0), w).
Proof.
  assert (__size hashtable_fresh + 4 <= 2 ^ 32) as Hfit by (cbn; lia).
  split; [apply hashtable_fresh_ok|]. split; [lia|]. split; [exact Hfit|].
  split; [apply hashtable_fresh_free|].
  destruct (illegal_key_found_on_free_table 4 0 0 hashtable_fresh hashtable_fresh_ok)
    as (w & _ & Hf & _); [lia|exact Hfit|apply hashtable_fresh_free|].
  exists w. exact Hf.
Defined.

Lemma remove_twice_fails_witness :
  table_ok 4 hashtable_full /\ 0 <= 4 /\ 512 <> 0 /\
  (holders 4 hashtable_full 512 <= 1)%nat /\
  exists w w',
    exec (hashtable_uint32_remove 512 true) hashtable_full = Some ((1, Some 512), w) /\
    exec (hashtable_uint32_remove 512 true) (ht w) = Some ((0, None), w').
Proof.
  assert (holders 4 hashtable_full 512 <= 1)%nat as Hone by (vm_compute; lia).
  split; [apply hashtable_full_ok|]. split; [lia|]. split; [lia|].
  split; [exact Hone|].
  assert (exists w,
    exec (hashtable_uint32_remove 512 true) hashtable_full = Some ((1, Some 512), w))
    as [w H] by (eexists; vm_compute; reflexivity).
  destruct (remove_twice_fails 4 0 0 hashtable_full 512 true (Some 512) w hashtable_full_ok)
    as (w' & H'); [lia|lia|exact Hone|exact H|].
  exists w, w'. split; [exact H|exact H'].
Defined.

Lemma stored_entry_is_found_witness :
  table_ok 4 hashtable_fresh /\ all_free 0 0 (__table hashtable_fresh) /\
  no_remove [Insert 256 256; Insert 512 512; Insert 768 768; Insert 1024 (1024 : Z)] /\
  run_ops 4 0 0 [Insert 256 256; Insert 512 512; Insert 768 768; Insert 1024 1024]
          hashtable_fresh = Some hashtable_full /\
  slot_at (__table hashtable_full) 2 = Some (Slot.mk 768 768) /\ 768 <> 0 /\
  exists w, exec (hashtable_uint32_find 768) hashtable_full = Some ((1, Some 768), w).
Proof.
  assert (slot_at (__table hashtable_full) 2 = Some (Slot.mk 768 768)) as Hs
    by (vm_compute; reflexivity).
  split; [apply hashtable_fresh_ok|]. split; [apply hashtable_fresh_free|].
  split; [apply four_inserts_no_remove|]. split; [apply hashtable_full_reached|].
  split; [exact Hs|]. split; [lia|].
  apply (stored_entry_is_found 4 0 0 _ hashtable_fresh hashtable_full 2 (Slot.mk 768 768)
           hashtable_fresh_ok hashtable_fresh_free four_inserts_no_remove
           hashtable_full_reached Hs).
  cbn [Slot.key]. lia.
Defined.

Lemma run_ops_never_faults_witness :
  table_ok 4 hashtable_full /\ 0 <= 4 /\
  exists h',
    run_ops 4 0 0 [Insert 1280 5; Remove 256 true; Find 256; Remove 256 false]
            hashtable_full = Some h' /\
    table_ok 4 h'.
Proof.
  split; [apply hashtable_full_ok|]. split; [lia|].
  apply (run_ops_never_faults 4 0 0 _ hashtable_full hashtable_full_ok). lia.
Defined.

Lemma one_slot_per_key_without_remove_witness :
  all_free 0 0 (__table hashtable_fresh) /\
  no_remove [Insert 256 256; Insert 512 512; Insert 768 768; Insert 1024 (1024 : Z)] /\
  run_ops 4 0 0 [Insert 256 256; Insert 512 512; Insert 768 768; Insert 1024 1024]
          hashtable_fresh = Some hashtable_full /\
  512 <> 0 /\ (holders 4 hashtable_full 512 <= 1)%nat.
Proof.
  split; [apply hashtable_fresh_free|]. split; [apply four_inserts_no_remove|].
  split; [apply hashtable_full_reached|]. split; [lia|].
  apply (one_slot_per_key_without_remove 4 0 0 _ hashtable_fresh hashtable_full 512
           hashtable_fresh_free four_inserts_no_remove hashtable_full_reached).
  lia.
Defined.

Lemma round_trip_all_free_witness :
  table_ok 4 hashtable_fresh /\ 0 < 4 /\ __size hashtable_fresh + 4 <= 2 ^ 32 /\
  all_free 0 0 (__table hashtable_fresh) /\ 256 <> 0 /\
  exists w1 w2 w3 w4,
    exec (hashtable_uint32_insert 256 7) hashtable_fresh = Some (1, w1) /\
    exec (hashtable_uint32_find 256) (ht w1) = Some ((1, Some 7), w2) /\
    exec (hashtable_uint32_remove 256 true) (ht w1) = Some ((1, Some 7), w3) /\
    exec (hashtable_uint32_find 256) (ht w3) = Some ((0, None), w4).
Proof.
  assert (__size hashtable_fresh + 4 <= 2 ^ 32) as Hfit by (cbn; lia).
  split; [apply hashtable_fresh_ok|]. split; [lia|]. split; [exact Hfit|].
  split; [apply hashtable_fresh_free|]. split; [lia|].
  apply (round_trip_all_free 4 0 0 hashtable_fresh 256 7 hashtable_fresh_ok);
    [lia|exact Hfit|apply hashtable_fresh_free|lia].
Defined.

Lemma init_returns_witness :
  0 < 8 /\ 0 <= 4 < 2 ^ 31 /\ 0 <= bits hashtable <= 30 /\
  8 * (2 ^ bits hashtable + 4) < 2 ^ 64 /\
  alloc_exact 8 (alloc_junk (Slot.mk 7 9)) /\
  alloc_junk (Slot.mk 7 9) (8 * (2 ^ bits hashtable + 4))
    = Some (replicate 260 (Slot.mk 7 9)) /\
  exists w,
    exec (hashtable_uint32_init (alloc_junk (Slot.mk 7 9))) hashtable = Some (1, w) /\
    table_ok 4 (ht w).
Proof.
  assert (0 <= bits hashtable <= 30) as Hb
    by (change (bits hashtable) with 8; lia).
  assert (8 * (2 ^ bits hashtable + 4) < 2 ^ 64) as Hsz
    by (change (bits hashtable) with 8; lia).
  assert (alloc_junk (Slot.mk 7 9) (8 * (2 ^ bits hashtable + 4))
          = Some (replicate 260 (Slot.mk 7 9))) as Ha by (vm_compute; reflexivity).
  split; [lia|]. split; [lia|]. split; [exact Hb|]. split; [exact Hsz|].
  split; [apply alloc_junk_exact|]. split; [exact Ha|].
  apply (init_returns 4 0 0 8 (alloc_junk (Slot.mk 7 9)) hashtable
           (replicate 260 (Slot.mk 7 9))); [lia|lia|exact Hb|exact Hsz| |exact Ha].
  apply alloc_junk_exact.
Defined.

Lemma hash32shift_injective_witness :
  0 <= 12345 < 2 ^ 32 /\ hash32shift 12345 = hash32shift 12345 /\ 12345 = 12345.
Proof.
  split; [lia|]. split; [reflexivity|].
  apply (hash32shift_injective 12345 12345); [lia|lia|reflexivity].
Defined.

Lemma registry_add_registers_witness :
  length hashtable_registry_empty = REGISTRY_SIZE /\
  Some 4096 ∈ hashtable_registry_add 4096 hashtable_registry_empty.
Proof.
  assert (length hashtable_registry_empty = REGISTRY_SIZE) as Hlen by reflexivity.
  split; [exact Hlen|].
  apply (proj1 (proj2 (proj2 (registry_add_registers 4096 hashtable_registry_empty Hlen)))).
  right. apply list_elem_of_lookup. by exists 0%nat.
Defined.

Lemma registry_add_first_fit_witness :
  (0 < REGISTRY_SIZE)%nat /\ hashtable_registry_empty !! 0%nat = Some None /\
  hashtable_registry_add 4096 hashtable_registry_empty
    = <[0%nat := Some 4096]> hashtable_registry_empty.
Proof.
  assert (0 < REGISTRY_SIZE)%nat as H0 by (unfold REGISTRY_SIZE; lia).
  split; [exact H0|]. split; [reflexivity|].
  apply (registry_add_first_fit 4096 hashtable_registry_empty 0 H0);
    [by left|intros k Hk; lia].
Defined.

Lemma registry_remove_clears_witness :
  length (hashtable_registry_add 4096 hashtable_registry_empty) = REGISTRY_SIZE /\
  Some 4096 ∉ hashtable_registry_remove 4096
                (hashtable_registry_add 4096 hashtable_registry_empty).
Proof.
  assert (length (hashtable_registry_add 4096 hashtable_registry_empty) = REGISTRY_SIZE)
    as Hlen by reflexivity.
  split; [exact Hlen|].
  exact (proj2 (proj2 (registry_remove_clears 4096 _ Hlen))).
Defined.

Lemma registry_add_remove_witness :
  length hashtable_registry_empty = REGISTRY_SIZE /\
  (Some 4096 ∉ hashtable_registry_empty) /\
  hashtable_registry_remove 4096 (hashtable_registry_add 4096 hashtable_registry_empty)
    = hashtable_registry_empty.
Proof.
  split; [reflexivity|]. split; [apply registry_empty_unregistered|].
  apply (registry_add_remove 4096 hashtable_registry_empty);
    [reflexivity|apply registry_empty_unregistered].
Defined.

Lemma thread_job_alone_keeps_running_witness :
  table_ok 4 hashtable_fresh /\ all_free 0 0 (__table hashtable_fresh) /\
  0 <= 2 <= 22 /\
  exists w,
    exec (thread_job 3 2) hashtable_fresh = Some (None, w) /\
    __table (ht w) = __table hashtable_fresh.
Proof.
  split; [apply hashtable_fresh_ok|]. split; [apply hashtable_fresh_free|].
  split; [lia|].
  destruct (thread_job_alone_keeps_running 3 2 hashtable_fresh hashtable_fresh_ok
              hashtable_fresh_free) as (w & Hrun & Htbl & _); [lia|].
  exists w. split; [exact Hrun|exact Htbl].
Defined.

Lemma linux_inc_index_wraps_witness :
  0 <= 7 < 2 ^ 32 /\ 0 <= linux_inc_index 7 7 <= 7 /\ linux_inc_index 7 7 = 0.
Proof.
  split; [lia|].
  destruct (linux_inc_index_wraps 7 7) as [Hr Hm]; [lia|lia|].
  split; [exact Hr|]. apply Hm. lia.
Defined.

Lemma hashtable_get_index_is_mod_witness :
  0 <= 1280 < 2 ^ 32 /\ 0 <= 8 < 64 /\ __size hashtable_fresh = 2 ^ 8 /\
  hashtable_get_index hashtable_fresh 1280 = 1280 mod __size hashtable_fresh.
Proof.
  split; [lia|]. split; [lia|]. split; [reflexivity|].
  destruct (hashtable_get_index_is_mod hashtable_fresh 1280) as [Hmod _]; [lia|].
  apply (Hmod 8); [lia|reflexivity].
Defined.
End more_test_runs.
